(** * Campaign and customer analysis pipelines
    A shallow embedding of [analyze_campaigns.py] and [analyze_customers.py].

    Modelling conventions.
    - A pandas DataFrame is a [list] of row records, in row order.
    - Real-valued columns (Spend, Revenue, Order Amount) are exact rationals
      [Q]; count columns (Impressions, Clicks, Conversions) are [nat].
    - Columns the cleaning step runs [dropna] on are [option] (None = NaN);
      [Series.sum] skips NaN.
    - numpy true division of two scalars never raises: [x / 0] is nan when
      [x = 0] and +/-inf otherwise.  This is the [num] type below.
      Python's [int / int] (used for the buying frequency) raises
      ZeroDivisionError instead.
    - Timestamps are [Z] seconds; [pd.to_datetime] on a column that already
      holds timestamps is the identity, which is how the date conversion is
      modelled (the string-parsing path is not modelled).
    - The JSON files written by [calculate_metrics] are an explicit state. *)

From Stdlib Require Import String List Permutation Sorted Bool Arith ZArith QArith Qround Lia.
Import ListNotations.

Open Scope Q_scope.
Open Scope string_scope.

(** ** Scalars *)

Definition Qlt_bool (a b : Q) : bool := negb (Qle_bool b a).

(** A float result of numpy arithmetic on finite inputs. *)
Inductive num : Type :=
| Fin (q : Q)
| NaN
| PInf
| NInf.

(** numpy [a / b] on float64 scalars. *)
Definition true_div (a b : Q) : num :=
  if Qeq_bool b 0 then
    if Qeq_bool a 0 then NaN
    else if Qlt_bool 0 a then PInf else NInf
  else Fin (a / b).

(** [x * 100] *)
Definition times100 (x : num) : num :=
  match x with
  | Fin q => Fin (q * 100)
  | y => y
  end.

(** Strict comparison of floats: every comparison with nan is False. *)
Definition num_lt (x y : num) : bool :=
  match x, y with
  | Fin a, Fin b => Qlt_bool a b
  | NInf, Fin _ | NInf, PInf | Fin _, PInf => true
  | _, _ => false
  end.

Definition num_le (x y : num) : bool :=
  match x, y with
  | Fin a, Fin b => Qle_bool a b
  | NInf, NInf | PInf, PInf => true
  | NInf, Fin _ | NInf, PInf | Fin _, PInf => true
  | _, _ => false
  end.

Definition QofN (n : nat) : Q := inject_Z (Z.of_nat n).

(** Exceptions raised by the pipelines. *)
Inductive exn : Type :=
| ValueError_argmax_empty   (* [Series.idxmax]/[idxmin] of an empty Series *)
| ZeroDivisionError.        (* Python [int / 0] *)

(** ** Campaign domain: [analyze_campaigns.py] *)

Record camp_row : Type := mkCampRow {
  c_date : Z;
  c_campaign_id : string;
  c_impressions : nat;
  c_clicks : option nat;
  c_conversions : nat;
  c_spend : option Q;
  c_revenue : Q
}.

(** [df.dropna(subset=['Clicks', 'Spend'])] *)
Definition camp_notna (r : camp_row) : bool :=
  match c_clicks r, c_spend r with
  | Some _, Some _ => true
  | _, _ => false
  end.

(** [df['Spend'] > 0] (NaN compares False) *)
Definition spend_pos (r : camp_row) : bool :=
  match c_spend r with
  | Some s => Qlt_bool 0 s
  | None => false
  end.

(** [load_and_clean_data] after [read_csv]. *)
Definition load_and_clean_campaigns (df : list camp_row) : list camp_row :=
  let df := filter camp_notna df in
  let df := filter spend_pos df in
  (* df['Date'] = pd.to_datetime(df['Date']) *)
  map (fun r => r) df.

Definition sum_nat {A} (f : A -> nat) (l : list A) : nat :=
  fold_right (fun r acc => (f r + acc)%nat) 0%nat l.

Definition sum_Q {A} (f : A -> Q) (l : list A) : Q :=
  fold_right (fun r acc => f r + acc) 0 l.

Definition opt_nat (o : option nat) : nat :=
  match o with Some n => n | None => 0%nat end.

Definition opt_Q (o : option Q) : Q :=
  match o with Some q => q | None => 0 end.

Definition total_impressions (df : list camp_row) : Q :=
  QofN (sum_nat c_impressions df).
Definition total_clicks (df : list camp_row) : Q :=
  QofN (sum_nat (fun r => opt_nat (c_clicks r)) df).
Definition total_conversions (df : list camp_row) : Q :=
  QofN (sum_nat c_conversions df).
Definition total_spend (df : list camp_row) : Q :=
  sum_Q (fun r => opt_Q (c_spend r)) df.
Definition total_revenue (df : list camp_row) : Q :=
  sum_Q c_revenue df.

Definition ctr (df : list camp_row) : num :=
  times100 (true_div (total_clicks df) (total_impressions df)).
Definition conversion_rate (df : list camp_row) : num :=
  times100 (true_div (total_conversions df) (total_clicks df)).
Definition cpl (df : list camp_row) : num :=
  true_div (total_spend df) (total_conversions df).

(** [((revenue - spend) / spend) * 100] *)
Definition roi_of (revenue spend : Q) : num :=
  times100 (true_div (revenue - spend) spend).

Definition roi (df : list camp_row) : num :=
  roi_of (total_revenue df) (total_spend df).

(** Group keys of [groupby]: the distinct keys in ascending order. *)
Fixpoint insert_key (k : string) (l : list string) : list string :=
  match l with
  | [] => [k]
  | h :: t =>
      if String.eqb k h then l
      else if String.ltb k h then k :: l
      else h :: insert_key k t
  end.

Definition group_keys {A} (key : A -> string) (l : list A) : list string :=
  fold_right (fun r acc => insert_key (key r) acc) [] l.

Record camp_stat : Type := mkCampStat {
  st_campaign_id : string;
  st_spend : Q;
  st_revenue : Q;
  st_roi : num
}.

(** [df.groupby('Campaign ID').agg({'Spend':'sum','Revenue':'sum'})]
    followed by the ROI column. *)
Definition campaign_stats (df : list camp_row) : list camp_stat :=
  map (fun k =>
         let g := filter (fun r => String.eqb (c_campaign_id r) k) df in
         let sp := total_spend g in
         let rv := total_revenue g in
         mkCampStat k sp rv (roi_of rv sp))
      (group_keys c_campaign_id df).

(** [Series.idxmax] / [idxmin]: first position of the extreme non-nan
    value; an empty Series raises. *)
Fixpoint pick_first (better : num -> num -> bool) (best : option camp_stat)
    (l : list camp_stat) : option camp_stat :=
  match l with
  | [] => best
  | x :: t =>
      match st_roi x with
      | NaN => pick_first better best t
      | _ =>
          match best with
          | None => pick_first better (Some x) t
          | Some b =>
              if better (st_roi x) (st_roi b)
              then pick_first better (Some x) t
              else pick_first better best t
          end
      end
  end.

Definition idxmax (l : list camp_stat) : option camp_stat :=
  pick_first (fun x b => num_lt b x) None l.
Definition idxmin (l : list camp_stat) : option camp_stat :=
  pick_first (fun x b => num_lt x b) None l.

Record camp_metrics : Type := mkCampMetrics {
  m_ctr : num;
  m_conversion_rate : num;
  m_cpl : num;
  m_roi : num;
  m_cac : num;
  m_top_campaign : string;
  m_top_campaign_roi : num;
  m_bottom_campaign : string;
  m_bottom_campaign_roi : num
}.

(** ** Customer domain: [analyze_customers.py] *)

Record cust_row : Type := mkCustRow {
  cu_customer_id : option string;
  cu_order_date : Z;
  cu_signup_date : Z;
  cu_order_amount : option Q;
  cu_category : string
}.

Definition opt_eqb {A} (eqb : A -> A -> bool) (x y : option A) : bool :=
  match x, y with
  | Some a, Some b => eqb a b
  | None, None => true
  | _, _ => false
  end.

(** Equality of two rows as [duplicated] sees it (NaN equals NaN). *)
Definition cust_row_eqb (r s : cust_row) : bool :=
  opt_eqb String.eqb (cu_customer_id r) (cu_customer_id s)
  && Z.eqb (cu_order_date r) (cu_order_date s)
  && Z.eqb (cu_signup_date r) (cu_signup_date s)
  && opt_eqb Qeq_bool (cu_order_amount r) (cu_order_amount s)
  && String.eqb (cu_category r) (cu_category s).

(** [df.drop_duplicates()] (keep='first'); [seen] holds the rows kept so
    far. *)
Fixpoint drop_dup_aux (seen : list cust_row) (l : list cust_row)
    : list cust_row :=
  match l with
  | [] => []
  | x :: t =>
      if existsb (cust_row_eqb x) seen then drop_dup_aux seen t
      else x :: drop_dup_aux (x :: seen) t
  end.

Definition drop_duplicates (df : list cust_row) : list cust_row :=
  drop_dup_aux [] df.

(** [df.dropna(subset=['Order Amount', 'Customer ID'])] *)
Definition cust_notna (r : cust_row) : bool :=
  match cu_order_amount r, cu_customer_id r with
  | Some _, Some _ => true
  | _, _ => false
  end.

(** [df['Order Amount'] > 0] *)
Definition amount_pos (r : cust_row) : bool :=
  match cu_order_amount r with
  | Some a => Qlt_bool 0 a
  | None => false
  end.

(** [load_and_clean_data] after [read_csv]. *)
Definition load_and_clean_customers (df : list cust_row) : list cust_row :=
  let df := drop_duplicates df in
  let df := filter cust_notna df in
  let df := filter amount_pos df in
  (* df['Order Date'] = pd.to_datetime(...); df['Signup Date'] = ... *)
  map (fun r => r) df.

Definition count {A} (p : A -> bool) (l : list A) : nat := length (filter p l).

(** The groups of [df.groupby('Customer ID')], ascending, NaN keys dropped;
    also the values counted by [nunique()]. *)
Definition customer_ids (df : list cust_row) : list string :=
  fold_right (fun r acc =>
                match cu_customer_id r with
                | Some k => insert_key k acc
                | None => acc
                end) [] df.

Definition rows_of (df : list cust_row) (k : string) : list cust_row :=
  filter (fun r => opt_eqb String.eqb (cu_customer_id r) (Some k)) df.

Definition amount (r : cust_row) : Q := opt_Q (cu_order_amount r).

(** [df['Customer ID'].nunique()] *)
Definition active_customers (df : list cust_row) : nat :=
  length (customer_ids df).

(** [df['Order Amount'].sum()] *)
Definition total_order_amount (df : list cust_row) : Q := sum_Q amount df.

(** [df.groupby('Customer ID').size()] *)
Definition order_counts (df : list cust_row) : list nat :=
  map (fun k => length (rows_of df k)) (customer_ids df).

Definition retained_customers (df : list cust_row) : nat :=
  count (fun n => Nat.ltb 1 n) (order_counts df).

(** [Series.max()] of a datetime column; NaT on an empty column. *)
Definition max_date (l : list cust_row) : option Z :=
  fold_right (fun r acc =>
                match acc with
                | None => Some (cu_order_date r)
                | Some m => Some (Z.max (cu_order_date r) m)
                end) None l.

(** [(current_date - last_order_date).dt.days]: floor of the difference in
    days. *)
Definition days_inactive (df : list cust_row) (k : string) : option Z :=
  match max_date df, max_date (rows_of df k) with
  | Some cur, Some last => Some ((cur - last) / 86400)%Z
  | _, _ => None
  end.

Definition is_churned (df : list cust_row) (k : string) : bool :=
  match days_inactive df k with
  | Some d => Z.ltb 180 d
  | None => false
  end.

Definition churned_customers (df : list cust_row) : nat :=
  count (is_churned df) (customer_ids df).

(** [df.groupby('Customer ID')['Order Amount'].sum()] *)
Definition customer_revenue (df : list cust_row) : list Q :=
  map (fun k => sum_Q amount (rows_of df k)) (customer_ids df).

Fixpoint insert_Q (x : Q) (l : list Q) : list Q :=
  match l with
  | [] => [x]
  | h :: t => if Qle_bool x h then x :: l else h :: insert_Q x t
  end.

Definition sort_Q (l : list Q) : list Q := fold_right insert_Q [] l.

(** numpy's [_lerp]. *)
Definition lerp (a b t : Q) : Q :=
  let diff := b - a in
  if Qle_bool (1 # 2) t then b - diff * (1 - t) else a + diff * t.

(** Interpolated value of the sorted values [s] (of length [m + 1]) at the
    fractional position [v]; past the last index it is the last value. *)
Definition quantile_at (s : list Q) (m : nat) (v : Q) : Q :=
  let lo := Z.to_nat (Qfloor v) in
  if Nat.leb m lo then last s 0
  else lerp (nth lo s 0) (nth (S lo) s 0) (v - inject_Z (Qfloor v)).

(** [Series.quantile(q)]: numpy's 'linear' method, rank [q * (n - 1)]. *)
Definition quantile (q : Q) (l : list Q) : num :=
  let s := sort_Q l in
  match length s with
  | O => NaN
  | S m => Fin (quantile_at s m (q * QofN m))
  end.

Definition high_cutoff (df : list cust_row) : num :=
  quantile (4 # 5) (customer_revenue df).
Definition med_cutoff (df : list cust_row) : num :=
  quantile (1 # 2) (customer_revenue df).

Definition is_high (hi : num) (x : Q) : bool := num_le hi (Fin x).
Definition is_medium (hi me : num) (x : Q) : bool :=
  num_lt (Fin x) hi && num_le me (Fin x).
Definition is_low (me : num) (x : Q) : bool := num_lt (Fin x) me.

Definition high_value_count (df : list cust_row) : nat :=
  count (is_high (high_cutoff df)) (customer_revenue df).
Definition medium_value_count (df : list cust_row) : nat :=
  count (is_medium (high_cutoff df) (med_cutoff df)) (customer_revenue df).
Definition low_value_count (df : list cust_row) : nat :=
  count (is_low (med_cutoff df)) (customer_revenue df).

Record cust_metrics : Type := mkCustMetrics {
  cm_active_customers : nat;
  cm_buying_frequency : Q;
  cm_total_revenue : Q;
  cm_retention_rate : Q;
  cm_churn_rate : Q;
  cm_high_value_cutoff : num;
  cm_high_value_count : nat;
  cm_medium_value_count : nat;
  cm_low_value_count : nat
}.

(** The output files; [None] when the file has not been written. *)
Record files : Type := mkFiles {
  campaign_metrics_json : option camp_metrics;
  customer_metrics_json : option cust_metrics
}.

(** [calculate_metrics] of [analyze_campaigns.py]: raises before the
    [open(...)] when the aggregate table is empty. *)
Definition calculate_campaign_metrics (df : list camp_row) (fs : files)
    : (exn + camp_metrics) * files :=
  let stats := campaign_stats df in
  match idxmax stats, idxmin stats with
  | Some top, Some bottom =>
      let m := mkCampMetrics (ctr df) (conversion_rate df) (cpl df) (roi df)
                 (cpl df) (st_campaign_id top) (st_roi top)
                 (st_campaign_id bottom) (st_roi bottom) in
      (inr m, mkFiles (Some m) (customer_metrics_json fs))
  | _, _ => (inl ValueError_argmax_empty, fs)
  end.

(** The [__main__] block once the CSV file exists. *)
Definition run_campaign_pipeline (raw : list camp_row) (fs : files)
    : (exn + camp_metrics) * files :=
  calculate_campaign_metrics (load_and_clean_campaigns raw) fs.

(** [calculate_metrics] of [analyze_customers.py].  [len(df) /
    active_customers] is a Python int division and raises on an empty
    frame; past it every division is by a positive count. *)
Definition calculate_customer_metrics (df : list cust_row) (fs : files)
    : (exn + cust_metrics) * files :=
  let active := active_customers df in
  if Nat.eqb active 0 then (inl ZeroDivisionError, fs)
  else
    let m := mkCustMetrics active
               (QofN (length df) / QofN active)
               (total_order_amount df)
               ((QofN (retained_customers df) / QofN active) * 100)
               ((QofN (churned_customers df) / QofN active) * 100)
               (high_cutoff df)
               (high_value_count df) (medium_value_count df)
               (low_value_count df) in
    (inr m, mkFiles (campaign_metrics_json fs) (Some m)).

Definition run_customer_pipeline (raw : list cust_row) (fs : files)
    : (exn + cust_metrics) * files :=
  calculate_customer_metrics (load_and_clean_customers raw) fs.

(** A ratio lies in the closed interval [0, 100]; nan and inf do not. *)
Definition in_0_100 (x : num) : Prop :=
  match x with
  | Fin q => 0 <= q /\ q <= 100
  | _ => False
  end.

(** Strict order of group keys. *)
Definition str_lt (a b : string) : Prop := String.ltb a b = true.

(** Every ROI of an aggregate table is a finite float. *)
Definition roi_finite (l : list camp_stat) : Prop :=
  forall x, In x l -> exists q, st_roi x = Fin q.

(** ** Orders by day of week: [generate_visualizations] of
    [analyze_customers.py] *)

Definition days_order : list string :=
  ["Monday"; "Tuesday"; "Wednesday"; "Thursday"; "Friday"; "Saturday";
   "Sunday"].

(** [Series.dt.day_name()]: timestamps count seconds from 1970-01-01 00:00,
    a Thursday. *)
Definition day_name (t : Z) : string :=
  nth (Z.to_nat ((t / 86400 + 3) mod 7)) days_order "".

(** [Series.value_counts()]: each distinct value with its number of
    occurrences (pandas lists them by decreasing count; [reindex] below
    looks them up by label, so their order is not observable). *)
Definition value_counts (l : list string) : list (string * nat) :=
  map (fun k => (k, count (String.eqb k) l)) (group_keys (fun x => x) l).

(** [Series.reindex(idx)]: the value of each label of [idx], nan ([None])
    for a label absent from the Series. *)
Definition reindex (s : list (string * nat)) (idx : list string)
    : list (string * option nat) :=
  map (fun d => (d, option_map snd (find (fun p => String.eqb (fst p) d) s)))
      idx.

(** [df['DayOfWeek'].value_counts().reindex(days_order).reset_index()] *)
Definition day_counts (df : list cust_row) : list (string * option nat) :=
  reindex (value_counts (map (fun r => day_name (cu_order_date r)) df))
          days_order.

(** ** Monthly series: [df['Month'] = ...dt.to_period('M')] and
    [groupby('Month')] in both [generate_visualizations] *)

(** The month of a timestamp (seconds from 1970-01-01 00:00) in the
    proleptic Gregorian calendar, as [12 * year + (month - 1)]; the period
    ordering is the ordering of these numbers.  Days to civil date as in
    H. Hinnant's [civil_from_days]. *)
Definition month_of (t : Z) : Z :=
  let z := (t / 86400 + 719468)%Z in
  let era := (z / 146097)%Z in
  let doe := (z - era * 146097)%Z in
  let yoe := ((doe - doe / 1460 + doe / 36524 - doe / 146096) / 365)%Z in
  let doy := (doe - (365 * yoe + yoe / 4 - yoe / 100))%Z in
  let mp := ((5 * doy + 2) / 153)%Z in
  let m := if Z.ltb mp 10 then (mp + 3)%Z else (mp - 9)%Z in
  let y := if Z.leb m 2 then (yoe + era * 400 + 1)%Z else (yoe + era * 400)%Z in
  (12 * y + (m - 1))%Z.

(** Group keys of [groupby('Month')]: distinct months, ascending. *)
Fixpoint insert_month (k : Z) (l : list Z) : list Z :=
  match l with
  | [] => [k]
  | h :: t =>
      if Z.eqb k h then l
      else if Z.ltb k h then k :: l
      else h :: insert_month k t
  end.

Definition month_keys {A} (date : A -> Z) (l : list A) : list Z :=
  fold_right (fun r acc => insert_month (month_of (date r)) acc) [] l.

Definition in_month {A} (date : A -> Z) (k : Z) (r : A) : bool :=
  Z.eqb (month_of (date r)) k.

(** [df.groupby('Month')['Impressions'].sum()] of [analyze_campaigns.py]. *)
Definition monthly_impressions (df : list camp_row) : list (Z * nat) :=
  map (fun k => (k, sum_nat c_impressions (filter (in_month c_date k) df)))
      (month_keys c_date df).

(** [df.groupby('Month')['Order Amount'].sum()] of [analyze_customers.py]. *)
Definition monthly_revenue (df : list cust_row) : list (Z * Q) :=
  map (fun k => (k, sum_Q amount (filter (in_month cu_order_date k) df)))
      (month_keys cu_order_date df).

(** ** Generic facts *)

Lemma filter_all_false {A} (p : A -> bool) (l : list A) :
  (forall x, In x l -> p x = false) -> filter p l = [].
Proof.
  induction l as [|x t IH]; intros H; simpl; [reflexivity|].
  rewrite (H x (or_introl eq_refl)). apply IH. intros y Hy. apply H. now right.
Qed.

Lemma filter_all_true {A} (p : A -> bool) (l : list A) :
  (forall x, In x l -> p x = true) -> filter p l = l.
Proof.
  induction l as [|x t IH]; intros H; simpl; [reflexivity|].
  rewrite (H x (or_introl eq_refl)). f_equal. apply IH.
  intros y Hy. apply H. now right.
Qed.

Lemma Qeq_bool_QofN_0 (n : nat) : Qeq_bool (QofN n) 0 = Nat.eqb n 0.
Proof.
  unfold Qeq_bool, QofN, inject_Z; simpl.
  destruct (Z.eqb_spec (Z.of_nat n * 1) 0); destruct (Nat.eqb_spec n 0); lia.
Qed.

Lemma Qlt_bool_0_QofN (n : nat) : Qlt_bool 0 (QofN n) = negb (Nat.eqb n 0).
Proof.
  unfold Qlt_bool, Qle_bool, QofN, inject_Z; simpl.
  destruct (Z.leb_spec (Z.of_nat n * 1) 0); destruct (Nat.eqb_spec n 0); simpl; lia.
Qed.

Lemma QofN_le (m n : nat) : (m <= n)%nat -> QofN m <= QofN n.
Proof.
  intros H. unfold QofN. rewrite <- Zle_Qle. lia.
Qed.

Lemma QofN_nonneg (n : nat) : 0 <= QofN n.
Proof. apply (QofN_le 0). lia. Qed.

Lemma QofN_pos (n : nat) : (0 < n)%nat -> 0 < QofN n.
Proof.
  intros H. unfold QofN. change 0 with (inject_Z 0). rewrite <- Zlt_Qlt. lia.
Qed.

Lemma QofN_zero_iff (n : nat) : QofN n == 0 <-> n = 0%nat.
Proof.
  rewrite <- Qeq_bool_iff, Qeq_bool_QofN_0. apply Nat.eqb_eq.
Qed.

(** ** Campaign facts *)

Lemma clean_campaigns_spec (df : list camp_row) :
  load_and_clean_campaigns df = filter spend_pos (filter camp_notna df).
Proof. unfold load_and_clean_campaigns. apply map_id. Qed.

Lemma group_keys_const {A} (key : A -> string) (c : string) (l : list A) :
  l <> [] -> (forall r, In r l -> key r = c) -> group_keys key l = [c].
Proof.
  induction l as [|x t IH]; intros Hne H; [congruence|].
  simpl. rewrite (H x (or_introl eq_refl)).
  destruct t as [|y t'].
  - reflexivity.
  - fold (group_keys key (y :: t')). rewrite IH.
    + simpl. now rewrite String.eqb_refl.
    + discriminate.
    + intros r Hr. apply H. now right.
Qed.

(** [C1] When every raw row has Spend <= 0 (a missing Spend is dropped as
    well), cleaning leaves no row, and the campaign pipeline raises before
    the metrics file is opened: the file state is returned unchanged, no
    metrics record (NaN-filled or otherwise) is written. *)
Theorem campaign_all_nonpositive_spend_no_record
    (raw : list camp_row) (fs : files)
    (Hspend : forall r, In r raw -> forall s, c_spend r = Some s -> s <= 0) :
  load_and_clean_campaigns raw = []
  /\ run_campaign_pipeline raw fs = (inl ValueError_argmax_empty, fs).
Proof.
  assert (Hclean : load_and_clean_campaigns raw = []).
  { rewrite clean_campaigns_spec. apply filter_all_false.
    intros r Hr. apply filter_In in Hr as [Hr _].
    unfold spend_pos. destruct (c_spend r) as [s|] eqn:E; [|reflexivity].
    unfold Qlt_bool. rewrite (proj2 (Qle_bool_iff s 0) (Hspend r Hr s E)).
    reflexivity. }
  split; [exact Hclean|].
  unfold run_campaign_pipeline. rewrite Hclean. reflexivity.
Qed.

Lemma campaign_all_nonpositive_spend_no_record_witness :
  (forall r, In r [mkCampRow 0 "C1" 100 (Some 5%nat) 2 (Some 0) 10;
                   mkCampRow 1 "C2" 50 None 1 (Some (-3)) 0]
             -> forall s, c_spend r = Some s -> s <= 0)
  /\ load_and_clean_campaigns
       [mkCampRow 0 "C1" 100 (Some 5%nat) 2 (Some 0) 10;
        mkCampRow 1 "C2" 50 None 1 (Some (-3)) 0] = []
  /\ run_campaign_pipeline
       [mkCampRow 0 "C1" 100 (Some 5%nat) 2 (Some 0) 10;
        mkCampRow 1 "C2" 50 None 1 (Some (-3)) 0] (mkFiles None None)
     = (inl ValueError_argmax_empty, mkFiles None None).
Proof.
  assert (H : forall r, In r [mkCampRow 0 "C1" 100 (Some 5%nat) 2 (Some 0) 10;
                              mkCampRow 1 "C2" 50 None 1 (Some (-3)) 0]
              -> forall s, c_spend r = Some s -> s <= 0).
  { intros r Hr s Hs. simpl in Hr.
    destruct Hr as [<-|[<-|[]]]; simpl in Hs; injection Hs as <-;
      unfold Qle; simpl; lia. }
  split; [exact H|].
  exact (campaign_all_nonpositive_spend_no_record _ (mkFiles None None) H).
Defined.

Lemma total_clicks_QofN (df : list camp_row) :
  exists n, total_clicks df = QofN n.
Proof. eexists. reflexivity. Qed.

(** [C2] ctr() on a zero Impressions total is nan (no clicks) or +inf (some
    clicks), never a finite number and so never a misleading zero; on a
    positive total it is the finite value 100 * Clicks / Impressions. *)
Theorem ctr_division_policy (df : list camp_row) :
  (total_impressions df == 0 -> ctr df = NaN \/ ctr df = PInf)
  /\ (0 < total_impressions df ->
      exists q, ctr df = Fin q
                /\ q == 100 * total_clicks df / total_impressions df).
Proof.
  unfold ctr, true_div.
  destruct (total_clicks_QofN df) as [c Hc]. rewrite Hc.
  unfold total_impressions. split.
  - intros Hz. rewrite (proj2 (Qeq_bool_iff _ _) Hz).
    rewrite Qeq_bool_QofN_0, Qlt_bool_0_QofN.
    destruct (Nat.eqb c 0); simpl; auto.
  - intros Hpos.
    destruct (Qeq_bool (QofN (sum_nat c_impressions df)) 0) eqn:E.
    + apply Qeq_bool_iff in E. rewrite E in Hpos. discriminate.
    + eexists. split; [reflexivity|].
      field. intros Hz. rewrite Hz in Hpos. discriminate.
Qed.

Lemma sum_clicks_le_impressions (df : list camp_row) :
  (forall r, In r df ->
     exists c, c_clicks r = Some c /\ (c <= c_impressions r)%nat) ->
  (sum_nat (fun r => opt_nat (c_clicks r)) df <= sum_nat c_impressions df)%nat.
Proof.
  induction df as [|r t IH]; intros H; simpl; [lia|].
  destruct (H r (or_introl eq_refl)) as [c [Hc Hle]]. rewrite Hc. simpl.
  assert (IH' := IH (fun x Hx => H x (or_intror Hx))). lia.
Qed.

(** [C6] (amended) When every row has a Clicks value at most its
    Impressions, ctr() lies in [0, 100] provided the Impressions total is
    positive; with a zero total it is nan, outside the interval. *)
Theorem ctr_bounds (df : list camp_row)
    (Hrows : forall r, In r df ->
               exists c, c_clicks r = Some c /\ (c <= c_impressions r)%nat) :
  (0 < total_impressions df -> in_0_100 (ctr df))
  /\ (total_impressions df == 0 -> ctr df = NaN).
Proof.
  assert (Hle := sum_clicks_le_impressions df Hrows).
  unfold ctr, true_div, total_clicks, total_impressions in *.
  set (c := sum_nat (fun r => opt_nat (c_clicks r)) df) in *.
  set (i := sum_nat c_impressions df) in *.
  split.
  - intros Hpos.
    destruct (Qeq_bool (QofN i) 0) eqn:E.
    + apply Qeq_bool_iff in E. rewrite E in Hpos. discriminate.
    + simpl. split.
      * apply Qmult_le_0_compat; [|discriminate].
        apply Qle_shift_div_l; [exact Hpos|].
        rewrite Qmult_0_l. apply QofN_nonneg.
      * apply Qle_trans with (1 * 100); [|discriminate].
        apply Qmult_le_compat_r; [|discriminate].
        apply Qle_shift_div_r; [exact Hpos|].
        rewrite Qmult_1_l. now apply QofN_le.
  - intros Hz. rewrite (proj2 (Qeq_bool_iff _ _) Hz).
    apply QofN_zero_iff in Hz.
    assert (c = 0%nat) as -> by lia. reflexivity.
Qed.

Lemma ctr_bounds_witness :
  (forall r, In r [mkCampRow 0 "C1" 100 (Some 7%nat) 2 (Some 5) 9]
     -> exists c, c_clicks r = Some c /\ (c <= c_impressions r)%nat)
  /\ in_0_100 (ctr [mkCampRow 0 "C1" 100 (Some 7%nat) 2 (Some 5) 9]).
Proof.
  assert (H : forall r, In r [mkCampRow 0 "C1" 100 (Some 7%nat) 2 (Some 5) 9]
     -> exists c, c_clicks r = Some c /\ (c <= c_impressions r)%nat).
  { intros r [<-|[]]. exists 7%nat. simpl. split; [reflexivity|lia]. }
  split; [exact H|].
  apply (proj1 (ctr_bounds _ H)). reflexivity.
Defined.

(** [C6] counterexample: a single cleaned row with 0 Impressions and 0
    Clicks satisfies Clicks <= Impressions, yet ctr() is nan. *)
Lemma ctr_bounds_counterexample :
  load_and_clean_campaigns [mkCampRow 0 "C1" 0 (Some 0%nat) 0 (Some 1) 0]
    = [mkCampRow 0 "C1" 0 (Some 0%nat) 0 (Some 1) 0]
  /\ (forall r, In r [mkCampRow 0 "C1" 0 (Some 0%nat) 0 (Some 1) 0] ->
        exists c, c_clicks r = Some c /\ (c <= c_impressions r)%nat)
  /\ ~ in_0_100 (ctr [mkCampRow 0 "C1" 0 (Some 0%nat) 0 (Some 1) 0]).
Proof.
  split; [reflexivity|]. split.
  - intros r [<-|[]]. exists 0%nat. split; reflexivity.
  - simpl. intros [].
Qed.

(** [C5] With a single Campaign ID c (non-empty dataset), the aggregate table
    is the one group c whose summed Spend and Revenue are the dataset's
    totals, and the ROI recomputed from those sums, as well as the ROI
    column of the group, equal the overall roi(). *)
Theorem single_campaign_roi_agrees (df : list camp_row) (c : string)
    (Hne : df <> [])
    (Hid : forall r, In r df -> c_campaign_id r = c) :
  exists st, campaign_stats df = [st]
             /\ st_campaign_id st = c
             /\ st_spend st = total_spend df
             /\ st_revenue st = total_revenue df
             /\ roi_of (st_revenue st) (st_spend st) = roi df
             /\ st_roi st = roi df.
Proof.
  unfold campaign_stats. rewrite (group_keys_const _ c _ Hne Hid). simpl.
  rewrite filter_all_true.
  - eexists. repeat split; reflexivity.
  - intros r Hr. rewrite (Hid r Hr). apply String.eqb_refl.
Qed.

Lemma single_campaign_roi_agrees_witness :
  [mkCampRow 0 "A" 10 (Some 1%nat) 0 (Some 4) 6;
   mkCampRow 1 "A" 20 (Some 2%nat) 1 (Some 2) 1] <> []
  /\ exists st, campaign_stats
                  [mkCampRow 0 "A" 10 (Some 1%nat) 0 (Some 4) 6;
                   mkCampRow 1 "A" 20 (Some 2%nat) 1 (Some 2) 1] = [st]
     /\ st_roi st = roi [mkCampRow 0 "A" 10 (Some 1%nat) 0 (Some 4) 6;
                         mkCampRow 1 "A" 20 (Some 2%nat) 1 (Some 2) 1].
Proof.
  split; [discriminate|].
  destruct (single_campaign_roi_agrees
              [mkCampRow 0 "A" 10 (Some 1%nat) 0 (Some 4) 6;
               mkCampRow 1 "A" 20 (Some 2%nat) 1 (Some 2) 1] "A"
              ltac:(discriminate)
              ltac:(intros r [<-|[<-|[]]]; reflexivity))
    as [st [H1 [_ [_ [_ [_ H6]]]]]].
  exists st. split; assumption.
Defined.

(** ** Cleaning facts *)

Lemma Qeq_bool_sym (x y : Q) : Qeq_bool x y = Qeq_bool y x.
Proof.
  destruct (Qeq_bool x y) eqn:E1, (Qeq_bool y x) eqn:E2; try reflexivity.
  - apply Qeq_bool_iff in E1. apply Qeq_sym, Qeq_bool_iff in E1. congruence.
  - apply Qeq_bool_iff in E2. apply Qeq_sym, Qeq_bool_iff in E2. congruence.
Qed.

Lemma opt_eqb_sym {A} (eqb : A -> A -> bool)
    (Hsym : forall a b, eqb a b = eqb b a) (x y : option A) :
  opt_eqb eqb x y = opt_eqb eqb y x.
Proof. destruct x, y; simpl; auto. Qed.

Lemma cust_row_eqb_sym (r s : cust_row) : cust_row_eqb r s = cust_row_eqb s r.
Proof.
  unfold cust_row_eqb.
  rewrite (opt_eqb_sym String.eqb String.eqb_sym (cu_customer_id r)).
  rewrite (Z.eqb_sym (cu_order_date r)), (Z.eqb_sym (cu_signup_date r)).
  rewrite (opt_eqb_sym Qeq_bool Qeq_bool_sym (cu_order_amount r)).
  rewrite (String.eqb_sym (cu_category r)). reflexivity.
Qed.

(** No two rows of the list are duplicates of each other. *)
Fixpoint distinct_rows (l : list cust_row) : Prop :=
  match l with
  | [] => True
  | x :: t => existsb (cust_row_eqb x) t = false /\ distinct_rows t
  end.

Lemma existsb_false_iff {A} (p : A -> bool) (l : list A) :
  existsb p l = false <-> (forall y, In y l -> p y = false).
Proof.
  split.
  - intros H y Hy. destruct (p y) eqn:E; [|reflexivity].
    assert (existsb p l = true) by (apply existsb_exists; eauto). congruence.
  - intros H. destruct (existsb p l) eqn:E; [|reflexivity].
    apply existsb_exists in E as [y [Hy Hp]]. rewrite (H y Hy) in Hp.
    discriminate.
Qed.

Lemma drop_dup_aux_fresh (l seen : list cust_row) (x : cust_row) :
  In x (drop_dup_aux seen l) -> existsb (cust_row_eqb x) seen = false.
Proof.
  revert seen. induction l as [|y t IH]; intros seen Hx; simpl in Hx; [easy|].
  destruct (existsb (cust_row_eqb y) seen) eqn:E; [now apply IH|].
  destruct Hx as [<-|Hx]; [exact E|].
  apply IH in Hx. simpl in Hx. now apply orb_false_iff in Hx.
Qed.

Lemma drop_dup_aux_distinct (l seen : list cust_row) :
  distinct_rows (drop_dup_aux seen l).
Proof.
  revert seen. induction l as [|y t IH]; intros seen; simpl; [easy|].
  destruct (existsb (cust_row_eqb y) seen); [apply IH|].
  simpl. split; [|apply IH].
  apply existsb_false_iff. intros z Hz.
  apply drop_dup_aux_fresh in Hz. simpl in Hz.
  apply orb_false_iff in Hz as [Hz _]. now rewrite cust_row_eqb_sym.
Qed.

Lemma distinct_rows_filter (p : cust_row -> bool) (l : list cust_row) :
  distinct_rows l -> distinct_rows (filter p l).
Proof.
  induction l as [|x t IH]; simpl; [easy|]. intros [Hx Ht].
  destruct (p x); simpl; [split|]; auto.
  apply existsb_false_iff. intros y Hy. apply filter_In in Hy as [Hy _].
  exact (proj1 (existsb_false_iff _ _) Hx y Hy).
Qed.

Lemma drop_dup_aux_id (l seen : list cust_row) :
  distinct_rows l ->
  (forall x, In x l -> existsb (cust_row_eqb x) seen = false) ->
  drop_dup_aux seen l = l.
Proof.
  revert seen. induction l as [|x t IH]; intros seen Hd Hs; simpl; [easy|].
  destruct Hd as [Hx Ht]. rewrite (Hs x (or_introl eq_refl)). f_equal.
  apply IH; [exact Ht|]. intros y Hy. simpl. apply orb_false_iff. split.
  - rewrite cust_row_eqb_sym. exact (proj1 (existsb_false_iff _ _) Hx y Hy).
  - apply Hs. now right.
Qed.

Lemma clean_customers_spec (df : list cust_row) :
  load_and_clean_customers df
  = filter amount_pos (filter cust_notna (drop_duplicates df)).
Proof. unfold load_and_clean_customers. apply map_id. Qed.

Lemma clean_customers_rows (df : list cust_row) (r : cust_row) :
  In r (load_and_clean_customers df) ->
  cust_notna r = true /\ amount_pos r = true.
Proof.
  rewrite clean_customers_spec. intros H.
  apply filter_In in H as [H H2]. apply filter_In in H as [_ H1]. auto.
Qed.

(** [C7] Both cleaning policies are idempotent: cleaning an already cleaned
    campaign or customer dataset returns it unchanged. *)
Theorem load_and_clean_idempotent :
  (forall df : list camp_row,
     load_and_clean_campaigns (load_and_clean_campaigns df)
     = load_and_clean_campaigns df)
  /\ (forall df : list cust_row,
     load_and_clean_customers (load_and_clean_customers df)
     = load_and_clean_customers df).
Proof.
  split; intros df.
  - rewrite (clean_campaigns_spec (load_and_clean_campaigns df)).
    rewrite filter_all_true; [apply filter_all_true|].
    + intros r Hr. rewrite clean_campaigns_spec in Hr.
      apply filter_In in Hr as [Hr _]. apply filter_In in Hr as [_ Hr].
      exact Hr.
    + intros r Hr. apply filter_In in Hr as [Hr _].
      rewrite clean_campaigns_spec in Hr. apply filter_In in Hr. apply Hr.
  - rewrite (clean_customers_spec (load_and_clean_customers df)).
    unfold drop_duplicates at 1. rewrite drop_dup_aux_id.
    + rewrite filter_all_true; [apply filter_all_true|].
      * intros r Hr. apply (clean_customers_rows df r Hr).
      * intros r Hr. apply filter_In in Hr as [Hr _].
        apply (clean_customers_rows df r Hr).
    + rewrite clean_customers_spec.
      apply distinct_rows_filter, distinct_rows_filter, drop_dup_aux_distinct.
    + intros; reflexivity.
Qed.

(** ** Customer metric facts *)

Lemma in_insert_key_self (k : string) (l : list string) : In k (insert_key k l).
Proof.
  induction l as [|h t IH]; simpl; [now left|].
  destruct (String.eqb_spec k h) as [->|_]; [now left|].
  destruct (String.ltb k h); [now left|now right].
Qed.

Lemma in_insert_key_mono (k x : string) (l : list string) :
  In x l -> In x (insert_key k l).
Proof.
  induction l as [|h t IH]; simpl; [easy|]. intros Hx.
  destruct (String.eqb k h); [exact Hx|].
  destruct (String.ltb k h); [now right|].
  destruct Hx as [<-|Hx]; [now left|right; auto].
Qed.

Lemma in_customer_ids (df : list cust_row) (r : cust_row) (k : string) :
  In r df -> cu_customer_id r = Some k -> In k (customer_ids df).
Proof.
  induction df as [|x t IH]; intros Hr Hk; [easy|]. simpl.
  destruct Hr as [->|Hr].
  - rewrite Hk. apply in_insert_key_self.
  - destruct (cu_customer_id x); [apply in_insert_key_mono|]; auto.
Qed.

Lemma cleaned_id (df : list cust_row) (r : cust_row) :
  (forall r, In r df -> cust_notna r = true) -> In r df ->
  exists k, cu_customer_id r = Some k.
Proof.
  intros Hc Hr. specialize (Hc r Hr). unfold cust_notna in Hc.
  destruct (cu_order_amount r), (cu_customer_id r); try discriminate; eauto.
Qed.

Lemma active_customers_pos (df : list cust_row) :
  (forall r, In r df -> cust_notna r = true) -> df <> [] ->
  active_customers df <> 0%nat.
Proof.
  intros Hc Hne. destruct df as [|r t]; [congruence|].
  destruct (cleaned_id _ r Hc (or_introl eq_refl)) as [k Hk].
  unfold active_customers. intros H. apply length_zero_iff_nil in H.
  assert (Hin := in_customer_ids (r :: t) r k (or_introl eq_refl) Hk).
  rewrite H in Hin. exact Hin.
Qed.

Lemma calculate_customer_metrics_ok (df : list cust_row) (fs : files) :
  active_customers df <> 0%nat ->
  exists m,
    calculate_customer_metrics df fs
      = (inr m, mkFiles (campaign_metrics_json fs) (Some m))
    /\ cm_active_customers m = active_customers df
    /\ cm_retention_rate m
       = (QofN (retained_customers df) / QofN (active_customers df)) * 100
    /\ cm_churn_rate m
       = (QofN (churned_customers df) / QofN (active_customers df)) * 100
    /\ cm_high_value_cutoff m = high_cutoff df
    /\ cm_high_value_count m = high_value_count df
    /\ cm_medium_value_count m = medium_value_count df
    /\ cm_low_value_count m = low_value_count df.
Proof.
  intros H. unfold calculate_customer_metrics.
  apply Nat.eqb_neq in H. rewrite H.
  eexists. repeat split; reflexivity.
Qed.

Lemma max_date_spec (l : list cust_row) :
  l <> [] ->
  exists cur, max_date l = Some cur
              /\ (forall r, In r l -> (cu_order_date r <= cur)%Z)
              /\ (exists r, In r l /\ cu_order_date r = cur).
Proof.
  induction l as [|x t IH]; intros Hne; [congruence|]. simpl.
  destruct t as [|y t'].
  - simpl. exists (cu_order_date x). split; [reflexivity|]. split.
    + intros r [<-|[]]. lia.
    + exists x. split; [now left|reflexivity].
  - destruct IH as [m [Hm [Hle [r0 [Hr0 Hd0]]]]]; [discriminate|].
    fold (max_date (y :: t')). rewrite Hm.
    exists (Z.max (cu_order_date x) m). split; [reflexivity|]. split.
    + intros r [<-|Hr]; [lia|]. specialize (Hle r Hr). lia.
    + destruct (Z.max_spec (cu_order_date x) m) as [[_ ->]|[_ ->]].
      * exists r0. split; [now right|exact Hd0].
      * exists x. split; [now left|reflexivity].
Qed.

Lemma count_lt_length {A} (p : A -> bool) (l : list A) (x : A) :
  In x l -> p x = false -> (count p l < length l)%nat.
Proof.
  unfold count. induction l as [|y t IH]; intros Hx Hp; [easy|]. simpl.
  assert (Hle : (length (filter p t) <= length t)%nat)
    by apply filter_length_le.
  destruct Hx as [->|Hx].
  - rewrite Hp. lia.
  - specialize (IH Hx Hp). destruct (p y); simpl; lia.
Qed.

Lemma count_map {A B} (p : B -> bool) (f : A -> B) (l : list A) :
  count p (map f l) = count (fun x => p (f x)) l.
Proof.
  unfold count. induction l as [|x t IH]; simpl; [reflexivity|].
  destruct (p (f x)); simpl; congruence.
Qed.

Lemma count_perm {A} (p : A -> bool) (l l' : list A) :
  Permutation l l' -> count p l = count p l'.
Proof.
  unfold count. induction 1; simpl.
  - reflexivity.
  - destruct (p x); simpl; congruence.
  - destruct (p x), (p y); reflexivity.
  - congruence.
Qed.

Lemma Qeq_bool_refl_true (x : Q) : Qeq_bool x x = true.
Proof. apply Qeq_bool_iff. reflexivity. Qed.

Lemma rows_of_in (df : list cust_row) (r : cust_row) (k : string) :
  In r df -> cu_customer_id r = Some k -> In r (rows_of df k).
Proof.
  intros Hr Hk. apply filter_In. split; [exact Hr|].
  rewrite Hk. simpl. apply String.eqb_refl.
Qed.

Lemma some_customer_attains_max (df : list cust_row) (cur : Z) :
  (forall r, In r df -> cust_notna r = true) ->
  max_date df = Some cur ->
  (forall r, In r df -> (cu_order_date r <= cur)%Z) ->
  (exists r, In r df /\ cu_order_date r = cur) ->
  exists k, In k (customer_ids df) /\ max_date (rows_of df k) = Some cur.
Proof.
  intros Hclean Hcur Hle [r0 [Hr0 Hd0]].
  destruct (cleaned_id df r0 Hclean Hr0) as [k Hk].
  exists k. split; [exact (in_customer_ids df r0 k Hr0 Hk)|].
  assert (Hin := rows_of_in df r0 k Hr0 Hk).
  destruct (max_date_spec (rows_of df k)) as [last [Hl [Hle' [r1 [Hr1 Hd1]]]]].
  { intros E. rewrite E in Hin. exact Hin. }
  rewrite Hl. f_equal.
  apply filter_In in Hr1 as [Hr1 _].
  specialize (Hle r1 Hr1). specialize (Hle' r0 Hin). lia.
Qed.

(** [C3] On a non-empty cleaned customer dataset the reference date is the
    maximum Order Date of the dataset itself (the model has no clock); a
    customer is churned exactly when the whole days between that date and the
    customer's last Order Date exceed 180; the churn rate is 100 * churned /
    active customers; and with two customers whose last orders are 200 and
    0 days before the reference date the churn rate is 50. *)
Theorem churn_rate_dataset_relative (df : list cust_row) (fs : files)
    (Hclean : forall r, In r df -> cust_notna r = true)
    (Hne : df <> []) :
  exists m cur,
    calculate_customer_metrics df fs
      = (inr m, mkFiles (campaign_metrics_json fs) (Some m))
    /\ max_date df = Some cur
    /\ (forall r, In r df -> (cu_order_date r <= cur)%Z)
    /\ (exists r, In r df /\ cu_order_date r = cur)
    /\ (forall k,
          is_churned df k = true <->
          exists last, max_date (rows_of df k) = Some last
                       /\ (180 < (cur - last) / 86400)%Z)
    /\ cm_churn_rate m
       == 100 * QofN (churned_customers df) / QofN (active_customers df)
    /\ (forall a b, customer_ids df = [a; b] ->
          max_date (rows_of df a) = Some (cur - 200 * 86400)%Z ->
          max_date (rows_of df b) = Some cur ->
          cm_churn_rate m == 50).
Proof.
  destruct (calculate_customer_metrics_ok df fs (active_customers_pos df Hclean Hne))
    as [m [Hcalc [_ [_ [Hchurn _]]]]].
  destruct (max_date_spec df Hne) as [cur [Hcur [Hle Hex]]].
  exists m, cur. split; [exact Hcalc|]. split; [exact Hcur|].
  split; [exact Hle|]. split; [exact Hex|]. split; [|split].
  - intros k. unfold is_churned, days_inactive. rewrite Hcur.
    destruct (max_date (rows_of df k)) as [last|]; split.
    + intros H. exists last. split; [reflexivity|]. now apply Z.ltb_lt.
    + intros [l' [Hl' H]]. injection Hl' as <-. now apply Z.ltb_lt.
    + discriminate.
    + intros [l' [Hl' _]]. discriminate.
  - rewrite Hchurn. field.
    intros Hz. apply QofN_zero_iff in Hz.
    exact (active_customers_pos df Hclean Hne Hz).
  - intros a b Hab Ha Hb. rewrite Hchurn.
    assert (Ea : is_churned df a = true).
    { unfold is_churned, days_inactive. rewrite Hcur, Ha.
      replace (cur - (cur - 200 * 86400))%Z with (200 * 86400)%Z by lia.
      reflexivity. }
    assert (Eb : is_churned df b = false).
    { unfold is_churned, days_inactive. rewrite Hcur, Hb.
      rewrite Z.sub_diag. reflexivity. }
    unfold churned_customers, active_customers, count. rewrite Hab.
    simpl. rewrite Ea, Eb. unfold Qeq. vm_compute. reflexivity.
Qed.

Lemma churn_rate_dataset_relative_witness :
  exists m,
    calculate_customer_metrics
      [mkCustRow (Some "A") (10 * 86400) 0 (Some 5) "Books";
       mkCustRow (Some "B") (200 * 86400) 0 (Some 7) "Toys";
       mkCustRow (Some "B") (210 * 86400) 0 (Some 2) "Toys"]
      (mkFiles None None)
    = (inr m, mkFiles None (Some m))
    /\ cm_churn_rate m == 50.
Proof.
  destruct (churn_rate_dataset_relative
      [mkCustRow (Some "A") (10 * 86400) 0 (Some 5) "Books";
       mkCustRow (Some "B") (200 * 86400) 0 (Some 7) "Toys";
       mkCustRow (Some "B") (210 * 86400) 0 (Some 2) "Toys"]
      (mkFiles None None)
      ltac:(intros r Hr; simpl in Hr;
            destruct Hr as [<-|[<-|[<-|[]]]]; reflexivity)
      ltac:(discriminate))
    as [m [cur [Hcalc [Hcur [_ [_ [_ [_ H2]]]]]]]].
  exists m. split; [exact Hcalc|].
  vm_compute in Hcur. injection Hcur as <-.
  apply (H2 "A"%string "B"%string); vm_compute; reflexivity.
Defined.

(** [C8] On a non-empty cleaned customer dataset the stored retention rate
    is 100 * (customers with more than one order row) / active customers,
    unrounded; with order counts 1, 2 and 3 it is exactly 200/3. *)
Theorem retention_rate_formula (df : list cust_row) (fs : files)
    (Hclean : forall r, In r df -> cust_notna r = true)
    (Hne : df <> []) :
  exists m,
    calculate_customer_metrics df fs
      = (inr m, mkFiles (campaign_metrics_json fs) (Some m))
    /\ retained_customers df
       = count (fun k => Nat.ltb 1 (length (rows_of df k))) (customer_ids df)
    /\ cm_retention_rate m
       == 100 * QofN (retained_customers df) / QofN (active_customers df)
    /\ (Permutation (order_counts df) [1; 2; 3]%nat ->
        cm_retention_rate m == 200 # 3).
Proof.
  assert (Hpos := active_customers_pos df Hclean Hne).
  destruct (calculate_customer_metrics_ok df fs Hpos)
    as [m [Hcalc [_ [Hret _]]]].
  exists m. split; [exact Hcalc|]. split; [|split].
  - unfold retained_customers, order_counts. apply count_map.
  - rewrite Hret. field. intros Hz. apply QofN_zero_iff in Hz. exact (Hpos Hz).
  - intros Hp. rewrite Hret.
    assert (Ha : active_customers df = 3%nat).
    { unfold active_customers. apply Permutation_length in Hp.
      unfold order_counts in Hp. rewrite length_map in Hp. exact Hp. }
    assert (Hr : retained_customers df = 2%nat).
    { unfold retained_customers. rewrite (count_perm _ _ _ Hp). reflexivity. }
    rewrite Ha, Hr. unfold Qeq. vm_compute. reflexivity.
Qed.

Lemma retention_rate_formula_witness :
  exists m,
    calculate_customer_metrics
      [mkCustRow (Some "A") 0 0 (Some 5) "Books";
       mkCustRow (Some "B") 1 0 (Some 7) "Toys";
       mkCustRow (Some "B") 2 0 (Some 2) "Toys";
       mkCustRow (Some "C") 3 0 (Some 1) "Toys";
       mkCustRow (Some "C") 4 0 (Some 1) "Books";
       mkCustRow (Some "C") 5 0 (Some 3) "Toys"]
      (mkFiles None None)
    = (inr m, mkFiles None (Some m))
    /\ cm_retention_rate m == 200 # 3.
Proof.
  destruct (retention_rate_formula
      [mkCustRow (Some "A") 0 0 (Some 5) "Books";
       mkCustRow (Some "B") 1 0 (Some 7) "Toys";
       mkCustRow (Some "B") 2 0 (Some 2) "Toys";
       mkCustRow (Some "C") 3 0 (Some 1) "Toys";
       mkCustRow (Some "C") 4 0 (Some 1) "Books";
       mkCustRow (Some "C") 5 0 (Some 3) "Toys"]
      (mkFiles None None)
      ltac:(intros r Hr; simpl in Hr;
            repeat (destruct Hr as [<-|Hr]; [reflexivity|]); destruct Hr)
      ltac:(discriminate))
    as [m [Hcalc [_ [_ H3]]]].
  exists m. split; [exact Hcalc|]. apply H3.
  vm_compute. apply Permutation_refl.
Defined.

(** [C3] counterexample: the two-customer scenario with last orders 200 and
    10 days before the maximum Order Date describes no cleaned dataset, since
    one customer's last order is always the maximum itself. *)
Lemma churn_scenario_counterexample :
  ~ exists (df : list cust_row) (a b : string) (cur : Z),
      (forall r, In r df -> cust_notna r = true)
      /\ customer_ids df = [a; b]
      /\ max_date df = Some cur
      /\ max_date (rows_of df a) = Some (cur - 200 * 86400)%Z
      /\ max_date (rows_of df b) = Some (cur - 10 * 86400)%Z.
Proof.
  intros [df [a [b [cur [Hclean [Hab [Hcur [Ha Hb]]]]]]]].
  assert (Hne : df <> []) by (intros ->; discriminate Hab).
  destruct (max_date_spec df Hne) as [cur' [Hcur' [Hle Hex]]].
  rewrite Hcur in Hcur'. injection Hcur' as <-.
  destruct (some_customer_attains_max df cur Hclean Hcur Hle Hex)
    as [k [Hk Hl]].
  rewrite Hab in Hk. destruct Hk as [<-|[<-|[]]].
  - rewrite Ha in Hl. injection Hl. lia.
  - rewrite Hb in Hl. injection Hl. lia.
Qed.

(** [C10] On a non-empty cleaned customer dataset some customer's last order
    is the maximum Order Date, so it has 0 days of inactivity and is not
    churned; hence at most active - 1 customers are churned and the churn
    rate is strictly below 100. *)
Theorem churn_rate_below_100 (df : list cust_row) (fs : files)
    (Hclean : forall r, In r df -> cust_notna r = true)
    (Hne : df <> []) :
  exists m k,
    calculate_customer_metrics df fs
      = (inr m, mkFiles (campaign_metrics_json fs) (Some m))
    /\ In k (customer_ids df)
    /\ days_inactive df k = Some 0%Z
    /\ is_churned df k = false
    /\ (churned_customers df <= active_customers df - 1)%nat
    /\ cm_churn_rate m < 100.
Proof.
  assert (Hpos := active_customers_pos df Hclean Hne).
  destruct (calculate_customer_metrics_ok df fs Hpos)
    as [m [Hcalc [_ [_ [Hchurn _]]]]].
  destruct (max_date_spec df Hne) as [cur [Hcur [Hle Hex]]].
  destruct (some_customer_attains_max df cur Hclean Hcur Hle Hex)
    as [k [Hk Hl]].
  assert (Hd : days_inactive df k = Some 0%Z).
  { unfold days_inactive. rewrite Hcur, Hl, Z.sub_diag. reflexivity. }
  assert (Hc : is_churned df k = false).
  { unfold is_churned. rewrite Hd. reflexivity. }
  assert (Hlt := count_lt_length (is_churned df) (customer_ids df) k Hk Hc).
  exists m, k. split; [exact Hcalc|]. split; [exact Hk|].
  split; [exact Hd|]. split; [exact Hc|].
  unfold churned_customers, active_customers in *. split; [lia|].
  rewrite Hchurn.
  apply Qlt_le_trans with (1 * 100); [|apply Qle_refl].
  apply Qmult_lt_compat_r; [reflexivity|].
  apply Qlt_shift_div_r; [apply QofN_pos; lia|].
  rewrite Qmult_1_l. unfold QofN. rewrite <- Zlt_Qlt. lia.
Qed.

Lemma churn_rate_below_100_witness :
  exists m,
    calculate_customer_metrics
      [mkCustRow (Some "A") (10 * 86400) 0 (Some 5) "Books";
       mkCustRow (Some "B") (400 * 86400) 0 (Some 7) "Toys"]
      (mkFiles None None)
    = (inr m, mkFiles None (Some m))
    /\ cm_churn_rate m < 100.
Proof.
  destruct (churn_rate_below_100
      [mkCustRow (Some "A") (10 * 86400) 0 (Some 5) "Books";
       mkCustRow (Some "B") (400 * 86400) 0 (Some 7) "Toys"]
      (mkFiles None None)
      ltac:(intros r Hr; simpl in Hr;
            destruct Hr as [<-|[<-|[]]]; reflexivity)
      ltac:(discriminate))
    as [m [k [Hcalc [_ [_ [_ [_ H]]]]]]].
  exists m. split; assumption.
Defined.

(** ** Quantile facts *)

Lemma insert_Q_perm (x : Q) (l : list Q) : Permutation (insert_Q x l) (x :: l).
Proof.
  induction l as [|h t IH]; simpl; [reflexivity|].
  destruct (Qle_bool x h); [reflexivity|].
  rewrite IH. apply perm_swap.
Qed.

Lemma sort_Q_perm (l : list Q) : Permutation (sort_Q l) l.
Proof.
  induction l as [|x t IH]; simpl; [reflexivity|].
  fold (sort_Q t). rewrite insert_Q_perm. now apply perm_skip.
Qed.

Lemma insert_Q_sorted (x : Q) (l : list Q) :
  StronglySorted Qle l -> StronglySorted Qle (insert_Q x l).
Proof.
  induction l as [|h t IH]; intros Hs; simpl.
  - constructor; constructor.
  - inversion Hs as [|? ? Ht Hall]; subst.
    destruct (Qle_bool x h) eqn:E.
    + apply Qle_bool_iff in E. constructor; [exact Hs|].
      constructor; [exact E|].
      apply Forall_forall. intros y Hy.
      apply Qle_trans with h; [exact E|]. exact (proj1 (Forall_forall _ _) Hall y Hy).
    + constructor; [now apply IH|].
      apply Forall_forall. intros y Hy.
      apply (Permutation_in _ (insert_Q_perm x t)) in Hy. destruct Hy as [<-|Hy].
      * apply Qlt_le_weak, Qnot_le_lt. intros H.
        apply Qle_bool_iff in H. congruence.
      * exact (proj1 (Forall_forall _ _) Hall y Hy).
Qed.

Lemma sort_Q_sorted (l : list Q) : StronglySorted Qle (sort_Q l).
Proof.
  induction l as [|x t IH]; simpl; [constructor|]. now apply insert_Q_sorted.
Qed.

Lemma sorted_nth (s : list Q) (i j : nat) :
  StronglySorted Qle s -> (i <= j)%nat -> (j < length s)%nat ->
  nth i s 0 <= nth j s 0.
Proof.
  revert i j. induction s as [|x t IH]; intros i j Hs Hij Hj; simpl in Hj; [lia|].
  inversion Hs as [|? ? Ht Hall]; subst.
  destruct i as [|i'], j as [|j']; simpl.
  - apply Qle_refl.
  - apply (proj1 (Forall_forall _ _) Hall). apply nth_In. lia.
  - lia.
  - apply IH; auto; lia.
Qed.

Lemma last_nth (s : list Q) (m : nat) :
  length s = S m -> last s 0 = nth m s 0.
Proof.
  revert m. induction s as [|x t IH]; intros m Hl; [discriminate|].
  destruct t as [|y t'].
  - simpl in Hl. injection Hl as <-. reflexivity.
  - destruct m as [|m']; [simpl in Hl; discriminate|].
    simpl in Hl. injection Hl as Hl.
    change (last (y :: t') 0 = nth m' (y :: t') 0). apply IH. simpl. lia.
Qed.

Lemma lerp_eq (a b t : Q) : lerp a b t == a + (b - a) * t.
Proof. unfold lerp. destruct (Qle_bool (1 # 2) t); ring. Qed.

Lemma lerp_le_r (a b t : Q) : a <= b -> t <= 1 -> lerp a b t <= b.
Proof.
  intros Hab Ht. rewrite lerp_eq. apply (proj2 (Qle_minus_iff _ _)).
  setoid_replace (b + - (a + (b - a) * t)) with ((b + - a) * (1 + - t))
    by ring.
  apply Qmult_le_0_compat; apply (proj1 (Qle_minus_iff _ _)); assumption.
Qed.

Lemma lerp_ge_l (a b t : Q) : a <= b -> 0 <= t -> a <= lerp a b t.
Proof.
  intros Hab Ht. rewrite lerp_eq. apply (proj2 (Qle_minus_iff _ _)).
  setoid_replace (a + (b - a) * t + - a) with ((b + - a) * t) by ring.
  apply Qmult_le_0_compat; [apply (proj1 (Qle_minus_iff _ _)); exact Hab|exact Ht].
Qed.

Lemma lerp_mono (a b t1 t2 : Q) : a <= b -> t1 <= t2 -> lerp a b t1 <= lerp a b t2.
Proof.
  intros Hab Ht. rewrite !lerp_eq. apply (proj2 (Qle_minus_iff _ _)).
  setoid_replace (a + (b - a) * t2 + - (a + (b - a) * t1))
    with ((b + - a) * (t2 + - t1)) by ring.
  apply Qmult_le_0_compat; apply (proj1 (Qle_minus_iff _ _)); assumption.
Qed.

Lemma floor_facts (v : Q) (m : nat) :
  0 <= v -> v <= QofN m ->
  (Z.to_nat (Qfloor v) <= m)%nat
  /\ Z.of_nat (Z.to_nat (Qfloor v)) = Qfloor v
  /\ 0 <= v - inject_Z (Qfloor v)
  /\ v - inject_Z (Qfloor v) <= 1.
Proof.
  intros H0 Hm.
  assert (Hf0 : (0 <= Qfloor v)%Z).
  { change 0%Z with (Qfloor 0). now apply Qfloor_resp_le. }
  assert (Hfm : (Qfloor v <= Z.of_nat m)%Z).
  { rewrite <- (Qfloor_Z (Z.of_nat m)). now apply Qfloor_resp_le. }
  split; [lia|]. split; [lia|]. split.
  - apply (proj1 (Qle_minus_iff _ _)). apply Qfloor_le.
  - assert (Hlt := Qlt_floor v). rewrite inject_Z_plus in Hlt.
    apply (proj2 (Qle_minus_iff _ _)).
    setoid_replace (1 + - (v - inject_Z (Qfloor v)))
      with (inject_Z (Qfloor v) + inject_Z 1 + - v) by (simpl; ring).
    apply (proj1 (Qle_minus_iff _ _)). now apply Qlt_le_weak.
Qed.

Lemma quantile_at_mono (s : list Q) (m : nat) (v1 v2 : Q) :
  StronglySorted Qle s -> length s = S m ->
  0 <= v1 -> v1 <= v2 -> v2 <= QofN m ->
  quantile_at s m v1 <= quantile_at s m v2.
Proof.
  intros Hs Hlen H0 H12 Hm.
  assert (H1m : v1 <= QofN m) by (apply Qle_trans with v2; assumption).
  assert (H02 : 0 <= v2) by (apply Qle_trans with v1; assumption).
  destruct (floor_facts v1 m H0 H1m) as [Hlo1 [Hz1 [Ht1a Ht1b]]].
  destruct (floor_facts v2 m H02 Hm) as [Hlo2 [Hz2 [Ht2a Ht2b]]].
  assert (Hfl := Qfloor_resp_le v1 v2 H12).
  unfold quantile_at.
  set (lo1 := Z.to_nat (Qfloor v1)) in *.
  set (lo2 := Z.to_nat (Qfloor v2)) in *.
  assert (Hlo12 : (lo1 <= lo2)%nat) by lia.
  destruct (Nat.leb_spec m lo1) as [Hm1|Hm1].
  - destruct (Nat.leb_spec m lo2) as [_|Hm2]; [apply Qle_refl|lia].
  - assert (Hstep : lerp (nth lo1 s 0) (nth (S lo1) s 0)
                      (v1 - inject_Z (Qfloor v1)) <= nth (S lo1) s 0).
    { apply lerp_le_r; [apply sorted_nth; auto; lia|exact Ht1b]. }
    destruct (Nat.leb_spec m lo2) as [Hm2|Hm2].
    + rewrite (last_nth s m Hlen).
      apply Qle_trans with (nth (S lo1) s 0); [exact Hstep|].
      apply sorted_nth; auto; lia.
    + destruct (Nat.eq_dec lo1 lo2) as [Heq|Hne].
      * assert (Hf : Qfloor v1 = Qfloor v2) by lia.
        rewrite Heq, Hf. apply lerp_mono; [apply sorted_nth; auto; lia|].
        apply Qplus_le_compat; [exact H12|apply Qle_refl].
      * apply Qle_trans with (nth (S lo1) s 0); [exact Hstep|].
        apply Qle_trans with (nth lo2 s 0); [apply sorted_nth; auto; lia|].
        apply lerp_ge_l; [apply sorted_nth; auto; lia|exact Ht2a].
Qed.

Lemma quantile_med_le_high (l : list Q) :
  l <> [] ->
  exists h e, quantile (4 # 5) l = Fin h /\ quantile (1 # 2) l = Fin e
              /\ e <= h.
Proof.
  intros Hne. unfold quantile.
  assert (Hlen := Permutation_length (sort_Q_perm l)).
  destruct (length (sort_Q l)) as [|m] eqn:E.
  - destruct l; [congruence|discriminate].
  - eexists _, _. split; [reflexivity|]. split; [reflexivity|].
    assert (Hm := QofN_nonneg m).
    apply quantile_at_mono; auto using sort_Q_sorted.
    + apply Qmult_le_0_compat; [discriminate|exact Hm].
    + apply Qmult_le_compat_r; [discriminate|exact Hm].
    + setoid_replace (QofN m) with (1 * QofN m) at 2 by ring.
      apply Qmult_le_compat_r; [discriminate|exact Hm].
Qed.

Lemma quantile_const (q : Q) (l : list Q) (v : Q) :
  l <> [] -> (forall x, In x l -> x == v) ->
  exists h, quantile q l = Fin h /\ h == v.
Proof.
  intros Hne Hv.
  assert (Hs : forall y, In y (sort_Q l) -> y == v).
  { intros y Hy. apply Hv. exact (Permutation_in _ (sort_Q_perm l) Hy). }
  unfold quantile, quantile_at.
  assert (Hlen := Permutation_length (sort_Q_perm l)).
  destruct (length (sort_Q l)) as [|m] eqn:E.
  - destruct l; [congruence|discriminate].
  - eexists. split; [reflexivity|].
    destruct (Nat.leb_spec m (Z.to_nat (Qfloor (q * QofN m)))).
    + rewrite (last_nth _ m E). apply Hs, nth_In. lia.
    + rewrite lerp_eq.
      rewrite (Hs (nth _ (sort_Q l) 0)) by (apply nth_In; lia).
      rewrite (Hs (nth (S _) (sort_Q l) 0)) by (apply nth_In; lia).
      ring.
Qed.

Lemma count_three {A} (p q r : A -> bool) (l : list A) :
  (forall x, In x l -> (Nat.b2n (p x) + Nat.b2n (q x) + Nat.b2n (r x) = 1)%nat) ->
  (count p l + count q l + count r l = length l)%nat.
Proof.
  unfold count. induction l as [|x t IH]; intros H; simpl; [reflexivity|].
  assert (Hx := H x (or_introl eq_refl)).
  assert (Ht := IH (fun y Hy => H y (or_intror Hy))).
  destruct (p x), (q x), (r x); simpl in *; lia.
Qed.

Lemma customer_revenue_length (df : list cust_row) :
  length (customer_revenue df) = active_customers df.
Proof. unfold customer_revenue, active_customers. apply length_map. Qed.

Lemma customer_revenue_nonempty (df : list cust_row) :
  active_customers df <> 0%nat -> customer_revenue df <> [].
Proof.
  intros H E. apply H. rewrite <- customer_revenue_length, E. reflexivity.
Qed.

(** [C9] On a non-empty cleaned customer dataset every per-customer revenue
    satisfies exactly one of: >= highCutoff; medCutoff <= x < highCutoff;
    < medCutoff (the 50th percentile never exceeds the 80th); so the High,
    Medium and Low counts add up to the number of active customers. *)
Theorem segments_partition (df : list cust_row) (fs : files)
    (Hclean : forall r, In r df -> cust_notna r = true)
    (Hne : df <> []) :
  exists m,
    calculate_customer_metrics df fs
      = (inr m, mkFiles (campaign_metrics_json fs) (Some m))
    /\ (forall x, In x (customer_revenue df) ->
          (Nat.b2n (is_high (high_cutoff df) x)
           + Nat.b2n (is_medium (high_cutoff df) (med_cutoff df) x)
           + Nat.b2n (is_low (med_cutoff df) x) = 1)%nat)
    /\ (cm_high_value_count m + cm_medium_value_count m
        + cm_low_value_count m = cm_active_customers m)%nat.
Proof.
  assert (Hpos := active_customers_pos df Hclean Hne).
  destruct (calculate_customer_metrics_ok df fs Hpos)
    as [m [Hcalc [Hact [_ [_ [_ [Hh [Hm Hl]]]]]]]].
  destruct (quantile_med_le_high (customer_revenue df)
              (customer_revenue_nonempty df Hpos)) as [h [e [Hq8 [Hq5 Heh]]]].
  assert (Hone : forall x, In x (customer_revenue df) ->
          (Nat.b2n (is_high (high_cutoff df) x)
           + Nat.b2n (is_medium (high_cutoff df) (med_cutoff df) x)
           + Nat.b2n (is_low (med_cutoff df) x) = 1)%nat).
  { intros x _. unfold high_cutoff, med_cutoff. rewrite Hq8, Hq5.
    unfold is_high, is_medium, is_low, num_le, num_lt, Qlt_bool.
    destruct (Qle_bool h x) eqn:Eh, (Qle_bool e x) eqn:Ee; simpl;
      try reflexivity.
    apply Qle_bool_iff in Eh.
    assert (Hc : Qle_bool e x = true)
      by (apply Qle_bool_iff; apply Qle_trans with h; assumption).
    congruence. }
  exists m. split; [exact Hcalc|]. split; [exact Hone|].
  rewrite Hh, Hm, Hl, Hact, <- customer_revenue_length.
  apply count_three. exact Hone.
Qed.

Lemma segments_partition_witness :
  exists m,
    calculate_customer_metrics
      [mkCustRow (Some "A") 0 0 (Some 5) "Books";
       mkCustRow (Some "B") 1 0 (Some 7) "Toys";
       mkCustRow (Some "C") 2 0 (Some 2) "Toys";
       mkCustRow (Some "D") 3 0 (Some 40) "Toys"]
      (mkFiles None None)
    = (inr m, mkFiles None (Some m))
    /\ (cm_high_value_count m + cm_medium_value_count m
        + cm_low_value_count m = cm_active_customers m)%nat.
Proof.
  destruct (segments_partition
      [mkCustRow (Some "A") 0 0 (Some 5) "Books";
       mkCustRow (Some "B") 1 0 (Some 7) "Toys";
       mkCustRow (Some "C") 2 0 (Some 2) "Toys";
       mkCustRow (Some "D") 3 0 (Some 40) "Toys"]
      (mkFiles None None)
      ltac:(intros r Hr; simpl in Hr;
            repeat (destruct Hr as [<-|Hr]; [reflexivity|]); destruct Hr)
      ltac:(discriminate))
    as [m [Hcalc [_ H]]].
  exists m. split; assumption.
Defined.

(** [C4] When all per-customer revenues of a non-empty cleaned customer
    dataset equal v, highCutoff and medCutoff both equal v, every customer is
    High (>= holds) and the Medium and Low counts are 0. *)
Theorem equal_revenues_all_high (df : list cust_row) (fs : files) (v : Q)
    (Hclean : forall r, In r df -> cust_notna r = true)
    (Hne : df <> [])
    (Hv : forall x, In x (customer_revenue df) -> x == v) :
  exists m h e,
    calculate_customer_metrics df fs
      = (inr m, mkFiles (campaign_metrics_json fs) (Some m))
    /\ high_cutoff df = Fin h /\ med_cutoff df = Fin e
    /\ h == v /\ e == v
    /\ cm_high_value_cutoff m = Fin h
    /\ cm_high_value_count m = cm_active_customers m
    /\ cm_medium_value_count m = 0%nat
    /\ cm_low_value_count m = 0%nat.
Proof.
  assert (Hpos := active_customers_pos df Hclean Hne).
  assert (Hrne := customer_revenue_nonempty df Hpos).
  destruct (calculate_customer_metrics_ok df fs Hpos)
    as [m [Hcalc [Hact [_ [_ [Hcut [Hh [Hm Hl]]]]]]]].
  destruct (quantile_const (4 # 5) _ v Hrne Hv) as [h [Hq8 Hhv]].
  destruct (quantile_const (1 # 2) _ v Hrne Hv) as [e [Hq5 Hev]].
  exists m, h, e. split; [exact Hcalc|].
  unfold high_cutoff, med_cutoff.
  split; [exact Hq8|]. split; [exact Hq5|]. split; [exact Hhv|].
  split; [exact Hev|]. split; [now rewrite Hcut|].
  assert (Hhx : forall x, In x (customer_revenue df) -> Qle_bool h x = true).
  { intros x Hx. apply Qle_bool_iff. rewrite Hhv, (Hv x Hx). apply Qle_refl. }
  assert (Hex : forall x, In x (customer_revenue df) -> Qle_bool e x = true).
  { intros x Hx. apply Qle_bool_iff. rewrite Hev, (Hv x Hx). apply Qle_refl. }
  rewrite Hh, Hm, Hl, Hact. unfold high_value_count, medium_value_count,
    low_value_count, high_cutoff, med_cutoff, count. rewrite Hq8, Hq5.
  split; [|split].
  - rewrite filter_all_true; [apply customer_revenue_length|].
    intros x Hx. apply Hhx, Hx.
  - rewrite filter_all_false; [reflexivity|].
    intros x Hx. unfold is_medium, num_lt, Qlt_bool. simpl.
    rewrite (Hhx x Hx). reflexivity.
  - rewrite filter_all_false; [reflexivity|].
    intros x Hx. unfold is_low, num_lt, Qlt_bool.
    rewrite (Hex x Hx). reflexivity.
Qed.

Lemma equal_revenues_all_high_witness :
  exists m,
    calculate_customer_metrics
      [mkCustRow (Some "A") 0 0 (Some 10) "Books";
       mkCustRow (Some "B") 1 0 (Some 4) "Toys";
       mkCustRow (Some "B") 2 0 (Some 6) "Toys";
       mkCustRow (Some "C") 3 0 (Some 10) "Toys";
       mkCustRow (Some "D") 4 0 (Some 10) "Books";
       mkCustRow (Some "E") 5 0 (Some 10) "Toys"]
      (mkFiles None None)
    = (inr m, mkFiles None (Some m))
    /\ (exists h, cm_high_value_cutoff m = Fin h /\ h == 10)
    /\ cm_high_value_count m = 5%nat
    /\ cm_medium_value_count m = 0%nat
    /\ cm_low_value_count m = 0%nat.
Proof.
  destruct (equal_revenues_all_high
      [mkCustRow (Some "A") 0 0 (Some 10) "Books";
       mkCustRow (Some "B") 1 0 (Some 4) "Toys";
       mkCustRow (Some "B") 2 0 (Some 6) "Toys";
       mkCustRow (Some "C") 3 0 (Some 10) "Toys";
       mkCustRow (Some "D") 4 0 (Some 10) "Books";
       mkCustRow (Some "E") 5 0 (Some 10) "Toys"]
      (mkFiles None None) 10
      ltac:(intros r Hr; simpl in Hr;
            repeat (destruct Hr as [<-|Hr]; [reflexivity|]); destruct Hr)
      ltac:(discriminate)
      ltac:(intros x Hx; vm_compute in Hx;
            repeat (destruct Hx as [<-|Hx]; [reflexivity|]); destruct Hx))
    as [m [h [e [Hcalc [_ [_ [Hhv [_ [Hcut [Hh [Hm Hl]]]]]]]]]]].
  exists m. split; [exact Hcalc|].
  split; [exists h; split; assumption|].
  split; [|split; assumption].
  rewrite Hh. injection Hcalc as <- _. vm_compute. reflexivity.
Defined.

(** ** Group keys: order, membership and uniqueness *)

Lemma string_compare_lt_trans (s1 s2 s3 : string) :
  String.compare s1 s2 = Lt -> String.compare s2 s3 = Lt ->
  String.compare s1 s3 = Lt.
Proof.
  revert s2 s3. induction s1 as [|a1 t1 IH]; intros s2 s3 H12 H23;
    destruct s2 as [|a2 t2]; destruct s3 as [|a3 t3]; simpl in *;
    try discriminate; try reflexivity.
  destruct (Ascii.compare a1 a2) eqn:E12; try discriminate;
  destruct (Ascii.compare a2 a3) eqn:E23; try discriminate.
  - apply Ascii.compare_eq_iff in E12, E23. subst.
    unfold Ascii.compare at 1. rewrite N.compare_refl. exact (IH _ _ H12 H23).
  - apply Ascii.compare_eq_iff in E12. subst. now rewrite E23.
  - apply Ascii.compare_eq_iff in E23. subst. now rewrite E12.
  - unfold Ascii.compare in *. rewrite N.compare_lt_iff in *.
    assert (E : N.compare (Ascii.N_of_ascii a1) (Ascii.N_of_ascii a3) = Lt)
      by (apply N.compare_lt_iff; lia).
    now rewrite E.
Qed.

Lemma str_lt_trans (a b c : string) : str_lt a b -> str_lt b c -> str_lt a c.
Proof.
  unfold str_lt, String.ltb.
  destruct (String.compare a b) eqn:E1; try discriminate.
  destruct (String.compare b c) eqn:E2; try discriminate.
  now rewrite (string_compare_lt_trans a b c E1 E2).
Qed.

Lemma str_lt_irrefl (a : string) : ~ str_lt a a.
Proof.
  unfold str_lt, String.ltb. intros H.
  destruct (String.compare a a) eqn:E; try discriminate.
  assert (E' := String.compare_antisym a a). rewrite E in E'. discriminate.
Qed.

Lemma str_lt_total (a b : string) : a <> b -> ~ str_lt a b -> str_lt b a.
Proof.
  unfold str_lt, String.ltb. intros Hne Hn.
  destruct (String.compare b a) eqn:E.
  - apply String.compare_eq_iff in E. congruence.
  - reflexivity.
  - exfalso. apply Hn. rewrite String.compare_antisym, E. reflexivity.
Qed.

Lemma in_insert_key_inv (k x : string) (l : list string) :
  In x (insert_key k l) -> x = k \/ In x l.
Proof.
  induction l as [|h t IH]; simpl; intros H.
  - destruct H as [<-|[]]. now left.
  - destruct (String.eqb_spec k h) as [->|_]; [now right|].
    destruct (String.ltb k h).
    + destruct H as [<-|H]; [now left|now right].
    + destruct H as [<-|H]; [right; now left|].
      destruct (IH H) as [->|H']; [now left|right; now right].
Qed.

Lemma insert_key_sorted (k : string) (l : list string) :
  StronglySorted str_lt l -> StronglySorted str_lt (insert_key k l).
Proof.
  induction l as [|h t IH]; intros Hs; simpl.
  - constructor; constructor.
  - inversion Hs as [|? ? Ht Hall]; subst.
    destruct (String.eqb_spec k h) as [->|Hne]; [exact Hs|].
    destruct (String.ltb k h) eqn:Elt.
    + constructor; [exact Hs|]. constructor; [exact Elt|].
      apply Forall_forall. intros y Hy.
      apply str_lt_trans with h; [exact Elt|].
      exact (proj1 (Forall_forall _ _) Hall y Hy).
    + constructor; [now apply IH|].
      apply Forall_forall. intros y Hy.
      destruct (in_insert_key_inv k y t Hy) as [->|Hy'].
      * apply str_lt_total; [congruence|]. unfold str_lt. congruence.
      * exact (proj1 (Forall_forall _ _) Hall y Hy').
Qed.

Lemma sorted_str_nodup (l : list string) :
  StronglySorted str_lt l -> NoDup l.
Proof.
  induction 1 as [|a l Hs IH Hall]; constructor; [|exact IH].
  intros Hin. apply (str_lt_irrefl a).
  exact (proj1 (Forall_forall _ _) Hall a Hin).
Qed.

Lemma group_keys_nodup {A} (key : A -> string) (l : list A) :
  NoDup (group_keys key l).
Proof.
  apply sorted_str_nodup. induction l as [|x t IH]; simpl; [constructor|].
  now apply insert_key_sorted.
Qed.

Lemma customer_ids_nodup (df : list cust_row) : NoDup (customer_ids df).
Proof.
  apply sorted_str_nodup. induction df as [|x t IH]; simpl; [constructor|].
  destruct (cu_customer_id x); [now apply insert_key_sorted|exact IH].
Qed.

Lemma in_group_keys {A} (key : A -> string) (l : list A) (k : string) :
  In k (group_keys key l) <-> exists r, In r l /\ key r = k.
Proof.
  induction l as [|x t IH]; simpl; split.
  - intros [].
  - intros [r [[] _]].
  - intros H. destruct (in_insert_key_inv _ _ _ H) as [->|H'].
    + exists x. split; [now left|reflexivity].
    + apply IH in H' as [r [Hr Hk]]. exists r. split; [now right|exact Hk].
  - intros [r [[<-|Hr] Hk]].
    + rewrite Hk. apply in_insert_key_self.
    + apply in_insert_key_mono, IH. eauto.
Qed.

(** ** Sums over groups *)

Lemma sum_Q_ext {A} (f g : A -> Q) (l : list A) :
  (forall x, In x l -> f x == g x) -> sum_Q f l == sum_Q g l.
Proof.
  induction l as [|x t IH]; intros H; simpl; [reflexivity|].
  rewrite (H x (or_introl eq_refl)), IH; [reflexivity|].
  intros y Hy. apply H. now right.
Qed.

Lemma sum_Q_plus {A} (f g : A -> Q) (l : list A) :
  sum_Q (fun x => f x + g x) l == sum_Q f l + sum_Q g l.
Proof. induction l as [|x t IH]; simpl; [reflexivity|]. rewrite IH. ring. Qed.

Lemma sum_Q_scale {A} (c : Q) (f : A -> Q) (l : list A) :
  sum_Q (fun x => c * f x) l == c * sum_Q f l.
Proof. induction l as [|x t IH]; simpl; [ring|]. rewrite IH. ring. Qed.

Lemma sum_Q_le {A} (f g : A -> Q) (l : list A) :
  (forall x, In x l -> f x <= g x) -> sum_Q f l <= sum_Q g l.
Proof.
  induction l as [|x t IH]; intros H; simpl; [apply Qle_refl|].
  apply Qplus_le_compat; [apply H; now left|].
  apply IH. intros y Hy. apply H. now right.
Qed.

Lemma sum_Q_zeros {A} (l : list A) : sum_Q (fun _ => 0) l == 0.
Proof.
  induction l as [|x t IH]; [reflexivity|].
  change (0 + sum_Q (fun _ => 0) t == 0). rewrite IH. reflexivity.
Qed.

Lemma sum_Q_indicator (K : list string) (k0 : string) (c : Q) :
  NoDup K -> In k0 K ->
  sum_Q (fun k => if String.eqb k0 k then c else 0) K == c.
Proof.
  induction K as [|k K' IH]; intros Hnd Hin; [destruct Hin|].
  inversion Hnd as [|? ? Hk Hnd']; subst. simpl.
  destruct (String.eqb_spec k0 k) as [->|Hne].
  - rewrite (sum_Q_ext _ (fun _ => 0)).
    + rewrite sum_Q_zeros. ring.
    + intros y Hy. destruct (String.eqb_spec k y) as [->|_]; [contradiction|].
      reflexivity.
  - destruct Hin as [->|Hin]; [congruence|]. rewrite IH; auto. ring.
Qed.

(** Summing a column group by group gives the column total when every row
    falls into exactly one of the (distinct) groups. *)
Lemma sum_partition {A} (K : list string) (sel : A -> string -> bool)
    (f : A -> Q) (df : list A) :
  NoDup K ->
  (forall r, In r df ->
     exists k0, In k0 K /\ forall k, sel r k = String.eqb k0 k) ->
  sum_Q (fun k => sum_Q f (filter (fun r => sel r k) df)) K == sum_Q f df.
Proof.
  intros Hnd. induction df as [|r t IH]; intros H; simpl.
  - clear. induction K as [|x K IH]; simpl; [reflexivity|]. rewrite IH. ring.
  - destruct (H r (or_introl eq_refl)) as [k0 [Hk0 Hsel]].
    rewrite (sum_Q_ext _
      (fun k => (if String.eqb k0 k then f r else 0)
                + sum_Q f (filter (fun r => sel r k) t))).
    + rewrite sum_Q_plus, sum_Q_indicator by assumption.
      rewrite IH; [reflexivity|]. intros y Hy. apply H. now right.
    + intros k _. rewrite Hsel. destruct (String.eqb k0 k); simpl; ring.
Qed.

Lemma QofN_sum_nat {A} (f : A -> nat) (l : list A) :
  QofN (sum_nat f l) == sum_Q (fun x => QofN (f x)) l.
Proof.
  induction l as [|x t IH]; simpl; [reflexivity|].
  rewrite <- IH. unfold QofN. rewrite Nat2Z.inj_add, inject_Z_plus. reflexivity.
Qed.

Lemma QofN_inj (a b : nat) : QofN a == QofN b -> a = b.
Proof. unfold QofN. rewrite inject_Z_injective. lia. Qed.

Lemma sum_Q_map {A B} (f : B -> Q) (g : A -> B) (l : list A) :
  sum_Q f (map g l) = sum_Q (fun x => f (g x)) l.
Proof. induction l as [|x t IH]; simpl; [reflexivity|]. now rewrite <- IH. Qed.

Lemma length_as_sum {A} (l : list A) :
  QofN (length l) == sum_Q (fun _ => 1) l.
Proof.
  induction l as [|x t IH]; [reflexivity|].
  change (QofN (S (length t)) == 1 + sum_Q (fun _ => 1) t).
  rewrite <- IH. unfold QofN. rewrite Nat2Z.inj_succ, <- Z.add_1_l, inject_Z_plus.
  reflexivity.
Qed.

Lemma campaign_stats_totals (df : list camp_row) :
  sum_Q st_spend (campaign_stats df) == total_spend df
  /\ sum_Q st_revenue (campaign_stats df) == total_revenue df.
Proof.
  assert (Hk : forall r, In r df ->
     exists k0, In k0 (group_keys c_campaign_id df)
                /\ forall k, String.eqb (c_campaign_id r) k = String.eqb k0 k).
  { intros r Hr. exists (c_campaign_id r). split; [|reflexivity].
    apply in_group_keys. eauto. }
  unfold campaign_stats. rewrite !sum_Q_map. simpl. split.
  - exact (sum_partition _ _ _ df (group_keys_nodup _ _) Hk).
  - exact (sum_partition _ _ _ df (group_keys_nodup _ _) Hk).
Qed.

(** The per-campaign sums of Spend and Revenue add up to the overall totals:
    every row belongs to exactly one Campaign ID group. *)
Theorem campaign_stats_partition_totals (df : list camp_row) :
  sum_Q st_spend (campaign_stats df) == total_spend df
  /\ sum_Q st_revenue (campaign_stats df) == total_revenue df.
Proof.
  assert (Hk : forall r, In r df ->
     exists k0, In k0 (group_keys c_campaign_id df)
                /\ forall k, String.eqb (c_campaign_id r) k = String.eqb k0 k).
  { intros r Hr. exists (c_campaign_id r). split; [|reflexivity].
    apply in_group_keys. eauto. }
  unfold campaign_stats. rewrite !sum_Q_map. simpl. split.
  - exact (sum_partition _ _ _ df (group_keys_nodup _ _) Hk).
  - exact (sum_partition _ _ _ df (group_keys_nodup _ _) Hk).
Qed.

Lemma customer_ids_partition (df : list cust_row) :
  (forall r, In r df -> cust_notna r = true) ->
  forall r, In r df ->
    exists k0, In k0 (customer_ids df)
               /\ forall k, opt_eqb String.eqb (cu_customer_id r) (Some k)
                            = String.eqb k0 k.
Proof.
  intros Hclean r Hr. destruct (cleaned_id df r Hclean Hr) as [k0 Hk0].
  exists k0. split; [exact (in_customer_ids df r k0 Hr Hk0)|].
  intros k. rewrite Hk0. reflexivity.
Qed.

(** On a cleaned customer dataset the per-customer revenues add up to the
    Total Revenue metric, and the per-customer order counts add up to the
    number of rows (the numerator of the buying frequency). *)
Theorem customer_groups_partition_totals (df : list cust_row)
    (Hclean : forall r, In r df -> cust_notna r = true) :
  sum_Q (fun x => x) (customer_revenue df) == total_order_amount df
  /\ sum_nat (fun n => n) (order_counts df) = length df.
Proof.
  assert (Hp := customer_ids_partition df Hclean). split.
  - unfold customer_revenue, rows_of. rewrite sum_Q_map.
    exact (sum_partition _ _ amount df (customer_ids_nodup df) Hp).
  - apply QofN_inj. rewrite QofN_sum_nat, length_as_sum.
    unfold order_counts. rewrite sum_Q_map.
    rewrite (sum_Q_ext _ (fun k => sum_Q (fun _ => 1) (rows_of df k)))
      by (intros k _; apply length_as_sum).
    exact (sum_partition _ _ (fun _ => 1) df (customer_ids_nodup df) Hp).
Qed.

Lemma customer_groups_partition_totals_witness :
  (forall r, In r [mkCustRow (Some "A") 0 0 (Some 5) "Books";
                   mkCustRow (Some "B") 1 0 (Some 7) "Toys";
                   mkCustRow (Some "A") 2 0 (Some 2) "Toys"] ->
             cust_notna r = true)
  /\ sum_nat (fun n => n) (order_counts
       [mkCustRow (Some "A") 0 0 (Some 5) "Books";
        mkCustRow (Some "B") 1 0 (Some 7) "Toys";
        mkCustRow (Some "A") 2 0 (Some 2) "Toys"]) = 3%nat.
Proof.
  assert (H : forall r, In r [mkCustRow (Some "A") 0 0 (Some 5) "Books";
                   mkCustRow (Some "B") 1 0 (Some 7) "Toys";
                   mkCustRow (Some "A") 2 0 (Some 2) "Toys"] ->
             cust_notna r = true).
  { intros r Hr. simpl in Hr. destruct Hr as [<-|[<-|[<-|[]]]]; reflexivity. }
  split; [exact H|]. exact (proj2 (customer_groups_partition_totals _ H)).
Defined.

Lemma cust_row_eqb_refl (r : cust_row) : cust_row_eqb r r = true.
Proof.
  unfold cust_row_eqb.
  destruct (cu_customer_id r), (cu_order_amount r); simpl;
    rewrite ?String.eqb_refl, ?Z.eqb_refl, ?Qeq_bool_refl_true; reflexivity.
Qed.

Lemma drop_dup_aux_cover (l seen : list cust_row) (x : cust_row) :
  In x l ->
  (exists y, In y seen /\ cust_row_eqb x y = true)
  \/ (exists y, In y (drop_dup_aux seen l) /\ cust_row_eqb x y = true).
Proof.
  revert seen. induction l as [|z t IH]; intros seen Hx; [destruct Hx|].
  simpl. destruct (existsb (cust_row_eqb z) seen) eqn:E.
  - destruct Hx as [->|Hx].
    + left. apply existsb_exists in E. exact E.
    + apply IH, Hx.
  - destruct Hx as [->|Hx].
    + right. exists x. split; [now left|apply cust_row_eqb_refl].
    + destruct (IH (z :: seen) Hx) as [[y [[Hzy|Hy] Hxy]]|[y [Hy Hxy]]].
      * right. exists z. split; [now left|now rewrite Hzy].
      * left. eauto.
      * right. exists y. split; [now right|exact Hxy].
Qed.

Lemma drop_dup_aux_incl (l seen : list cust_row) (x : cust_row) :
  In x (drop_dup_aux seen l) -> In x l.
Proof.
  revert seen. induction l as [|z t IH]; intros seen Hx; simpl in *; [easy|].
  destruct (existsb (cust_row_eqb z) seen).
  - right. eapply IH; eauto.
  - destruct Hx as [<-|Hx]; [now left|right; eapply IH; eauto].
Qed.

(** [drop_duplicates] keeps only rows of its input, keeps no two rows that
    are duplicates of each other, and every input row is a duplicate of some
    kept row: nothing but duplicates is removed. *)
Theorem drop_duplicates_spec (df : list cust_row) :
  (forall x, In x (drop_duplicates df) -> In x df)
  /\ distinct_rows (drop_duplicates df)
  /\ (forall x, In x df ->
        exists y, In y (drop_duplicates df) /\ cust_row_eqb x y = true).
Proof.
  split; [intros x; apply drop_dup_aux_incl|].
  split; [apply drop_dup_aux_distinct|].
  intros x Hx. destruct (drop_dup_aux_cover df [] x Hx) as [[y [[] _]]|H].
  exact H.
Qed.

(** When every raw customer row has a missing or non-positive Order Amount,
    cleaning leaves no row and the customer pipeline stops with Python's
    ZeroDivisionError at [len(df) / active_customers], before the metrics
    file is opened. *)
Theorem customer_pipeline_empty_raises (raw : list cust_row) (fs : files)
    (Hamt : forall r, In r raw -> forall a, cu_order_amount r = Some a -> a <= 0) :
  load_and_clean_customers raw = []
  /\ run_customer_pipeline raw fs = (inl ZeroDivisionError, fs).
Proof.
  assert (Hclean : load_and_clean_customers raw = []).
  { rewrite clean_customers_spec. apply filter_all_false.
    intros r Hr. apply filter_In in Hr as [Hr _].
    apply drop_dup_aux_incl in Hr.
    unfold amount_pos. destruct (cu_order_amount r) as [a|] eqn:E; [|reflexivity].
    unfold Qlt_bool. rewrite (proj2 (Qle_bool_iff a 0) (Hamt r Hr a E)).
    reflexivity. }
  split; [exact Hclean|].
  unfold run_customer_pipeline. rewrite Hclean. reflexivity.
Qed.

Lemma customer_pipeline_empty_raises_witness :
  run_customer_pipeline
    [mkCustRow (Some "A") 0 0 (Some 0) "Books";
     mkCustRow (Some "B") 1 0 None "Toys";
     mkCustRow None 2 0 (Some (-4)) "Toys"] (mkFiles None None)
  = (inl ZeroDivisionError, mkFiles None None).
Proof.
  apply customer_pipeline_empty_raises.
  intros r Hr a Ha. simpl in Hr.
  destruct Hr as [<-|[<-|[<-|[]]]]; simpl in Ha; try discriminate;
    injection Ha as <-; unfold Qle; simpl; lia.
Defined.

(** ** Top and bottom campaign *)

Lemma roi_finite_tail (x : camp_stat) (t : list camp_stat) :
  roi_finite (x :: t) -> roi_finite t.
Proof. intros H y Hy. apply H. now right. Qed.

Lemma pick_max_from (l : list camp_stat) (b : camp_stat) (qb : Q) :
  st_roi b = Fin qb -> roi_finite l ->
  exists r qr,
    pick_first (fun x b => num_lt b x) (Some b) l = Some r
    /\ st_roi r = Fin qr /\ qb <= qr
    /\ (forall x q, In x l -> st_roi x = Fin q -> q <= qr)
    /\ (r = b \/ exists pre post, l = (pre ++ r :: post)%list /\ qb < qr
                /\ forall x q, In x pre -> st_roi x = Fin q -> q < qr).
Proof.
  revert b qb. induction l as [|x t IH]; intros b qb Hb Hfin.
  - exists b, qb. repeat split; auto using Qle_refl. intros x q [].
  - destruct (Hfin x (or_introl eq_refl)) as [qx Hx].
    simpl. rewrite Hx, Hb. simpl.
    destruct (Qlt_bool qb qx) eqn:E.
    + assert (Hlt : qb < qx).
      { apply Qnot_le_lt. intros H. apply Qle_bool_iff in H.
        unfold Qlt_bool in E. rewrite H in E. discriminate. }
      destruct (IH x qx Hx (roi_finite_tail _ _ Hfin))
        as [r [qr [Hp [Hr [Hle [Hall Hor]]]]]].
      exists r, qr. split; [exact Hp|]. split; [exact Hr|].
      split; [apply Qle_trans with qx; [now apply Qlt_le_weak|exact Hle]|].
      split.
      * intros y q [<-|Hy] Hq; [rewrite Hx in Hq; injection Hq as <-; exact Hle|].
        exact (Hall y q Hy Hq).
      * right. destruct Hor as [->|[pre [post [Hl [Hlt' Hpre]]]]].
        -- rewrite Hx in Hr. injection Hr as <-.
           exists [], t. split; [reflexivity|]. split; [exact Hlt|].
           intros y q [].
        -- exists (x :: pre), post. split; [now rewrite Hl|].
           split; [apply Qlt_trans with qx; assumption|].
           intros y q [<-|Hy] Hq; [|exact (Hpre y q Hy Hq)].
           rewrite Hx in Hq. injection Hq as <-. exact Hlt'.
    + assert (Hge : qx <= qb).
      { apply Qle_bool_iff. unfold Qlt_bool in E.
        destruct (Qle_bool qx qb); [reflexivity|discriminate]. }
      destruct (IH b qb Hb (roi_finite_tail _ _ Hfin))
        as [r [qr [Hp [Hr [Hle [Hall Hor]]]]]].
      exists r, qr. split; [exact Hp|]. split; [exact Hr|]. split; [exact Hle|].
      split.
      * intros y q [<-|Hy] Hq; [|exact (Hall y q Hy Hq)].
        rewrite Hx in Hq. injection Hq as <-. apply Qle_trans with qb; assumption.
      * destruct Hor as [->|[pre [post [Hl [Hlt' Hpre]]]]]; [now left|].
        right. exists (x :: pre), post. split; [now rewrite Hl|].
        split; [exact Hlt'|].
        intros y q [<-|Hy] Hq; [|exact (Hpre y q Hy Hq)].
        rewrite Hx in Hq. injection Hq as <-. apply Qle_lt_trans with qb; assumption.
Qed.

Lemma pick_min_from (l : list camp_stat) (b : camp_stat) (qb : Q) :
  st_roi b = Fin qb -> roi_finite l ->
  exists r qr,
    pick_first (fun x b => num_lt x b) (Some b) l = Some r
    /\ st_roi r = Fin qr /\ qr <= qb
    /\ (forall x q, In x l -> st_roi x = Fin q -> qr <= q)
    /\ (r = b \/ exists pre post, l = (pre ++ r :: post)%list /\ qr < qb
                /\ forall x q, In x pre -> st_roi x = Fin q -> qr < q).
Proof.
  revert b qb. induction l as [|x t IH]; intros b qb Hb Hfin.
  - exists b, qb. repeat split; auto using Qle_refl. intros x q [].
  - destruct (Hfin x (or_introl eq_refl)) as [qx Hx].
    simpl. rewrite Hx, Hb. simpl.
    destruct (Qlt_bool qx qb) eqn:E.
    + assert (Hlt : qx < qb).
      { apply Qnot_le_lt. intros H. apply Qle_bool_iff in H.
        unfold Qlt_bool in E. rewrite H in E. discriminate. }
      destruct (IH x qx Hx (roi_finite_tail _ _ Hfin))
        as [r [qr [Hp [Hr [Hle [Hall Hor]]]]]].
      exists r, qr. split; [exact Hp|]. split; [exact Hr|].
      split; [apply Qle_trans with qx; [exact Hle|now apply Qlt_le_weak]|].
      split.
      * intros y q [<-|Hy] Hq; [rewrite Hx in Hq; injection Hq as <-; exact Hle|].
        exact (Hall y q Hy Hq).
      * right. destruct Hor as [->|[pre [post [Hl [Hlt' Hpre]]]]].
        -- rewrite Hx in Hr. injection Hr as <-.
           exists [], t. split; [reflexivity|]. split; [exact Hlt|].
           intros y q [].
        -- exists (x :: pre), post. split; [now rewrite Hl|].
           split; [apply Qlt_trans with qx; assumption|].
           intros y q [<-|Hy] Hq; [|exact (Hpre y q Hy Hq)].
           rewrite Hx in Hq. injection Hq as <-. exact Hlt'.
    + assert (Hge : qb <= qx).
      { apply Qle_bool_iff. unfold Qlt_bool in E.
        destruct (Qle_bool qb qx); [reflexivity|discriminate]. }
      destruct (IH b qb Hb (roi_finite_tail _ _ Hfin))
        as [r [qr [Hp [Hr [Hle [Hall Hor]]]]]].
      exists r, qr. split; [exact Hp|]. split; [exact Hr|]. split; [exact Hle|].
      split.
      * intros y q [<-|Hy] Hq; [|exact (Hall y q Hy Hq)].
        rewrite Hx in Hq. injection Hq as <-. apply Qle_trans with qb; assumption.
      * destruct Hor as [->|[pre [post [Hl [Hlt' Hpre]]]]]; [now left|].
        right. exists (x :: pre), post. split; [now rewrite Hl|].
        split; [exact Hlt'|].
        intros y q [<-|Hy] Hq; [|exact (Hpre y q Hy Hq)].
        rewrite Hx in Hq. injection Hq as <-. apply Qlt_le_trans with qb; assumption.
Qed.

(** On a non-empty table of finite ROIs, [idxmax] picks a row whose ROI is
    at least every ROI of the table and strictly above every ROI before it
    (the first maximum); [idxmin] symmetrically picks the first minimum. *)
Theorem idxmax_idxmin_first_extreme (l : list camp_stat)
    (Hne : l <> []) (Hfin : roi_finite l) :
  (exists t pre post qt,
     idxmax l = Some t /\ l = (pre ++ t :: post)%list /\ st_roi t = Fin qt
     /\ (forall x q, In x l -> st_roi x = Fin q -> q <= qt)
     /\ (forall x q, In x pre -> st_roi x = Fin q -> q < qt))
  /\ (exists b pre post qb,
     idxmin l = Some b /\ l = (pre ++ b :: post)%list /\ st_roi b = Fin qb
     /\ (forall x q, In x l -> st_roi x = Fin q -> qb <= q)
     /\ (forall x q, In x pre -> st_roi x = Fin q -> qb < q)).
Proof.
  destruct l as [|x t]; [congruence|].
  destruct (Hfin x (or_introl eq_refl)) as [qx Hx].
  split.
  - destruct (pick_max_from t x qx Hx (roi_finite_tail _ _ Hfin))
      as [r [qr [Hp [Hr [Hle [Hall Hor]]]]]].
    assert (Hid : idxmax (x :: t) = Some r)
      by (unfold idxmax; simpl; rewrite Hx; exact Hp).
    assert (Hall' : forall y q, In y (x :: t) -> st_roi y = Fin q -> q <= qr).
    { intros y q [<-|Hy] Hq; [|exact (Hall y q Hy Hq)].
      rewrite Hx in Hq. injection Hq as <-. exact Hle. }
    destruct Hor as [->|[pre [post [Hl [Hlt Hpre]]]]].
    + exists x, [], t, qr. repeat split; auto. intros y q [].
    + exists r, (x :: pre), post, qr. split; [exact Hid|].
      split; [now rewrite Hl|]. split; [exact Hr|]. split; [exact Hall'|].
      intros y q [<-|Hy] Hq; [|exact (Hpre y q Hy Hq)].
      rewrite Hx in Hq. injection Hq as <-. exact Hlt.
  - destruct (pick_min_from t x qx Hx (roi_finite_tail _ _ Hfin))
      as [r [qr [Hp [Hr [Hle [Hall Hor]]]]]].
    assert (Hid : idxmin (x :: t) = Some r)
      by (unfold idxmin; simpl; rewrite Hx; exact Hp).
    assert (Hall' : forall y q, In y (x :: t) -> st_roi y = Fin q -> qr <= q).
    { intros y q [<-|Hy] Hq; [|exact (Hall y q Hy Hq)].
      rewrite Hx in Hq. injection Hq as <-. exact Hle. }
    destruct Hor as [->|[pre [post [Hl [Hlt Hpre]]]]].
    + exists x, [], t, qr. repeat split; auto. intros y q [].
    + exists r, (x :: pre), post, qr. split; [exact Hid|].
      split; [now rewrite Hl|]. split; [exact Hr|]. split; [exact Hall'|].
      intros y q [<-|Hy] Hq; [|exact (Hpre y q Hy Hq)].
      rewrite Hx in Hq. injection Hq as <-. exact Hlt.
Qed.

Lemma idxmax_idxmin_first_extreme_witness :
  exists t b,
    idxmax [mkCampStat "A" 1 2 (Fin 100); mkCampStat "B" 1 3 (Fin 200);
            mkCampStat "C" 1 3 (Fin 200); mkCampStat "D" 2 1 (Fin (-50))]
      = Some t
    /\ idxmin [mkCampStat "A" 1 2 (Fin 100); mkCampStat "B" 1 3 (Fin 200);
               mkCampStat "C" 1 3 (Fin 200); mkCampStat "D" 2 1 (Fin (-50))]
      = Some b
    /\ st_campaign_id t = "B" /\ st_campaign_id b = "D".
Proof.
  destruct (idxmax_idxmin_first_extreme
      [mkCampStat "A" 1 2 (Fin 100); mkCampStat "B" 1 3 (Fin 200);
       mkCampStat "C" 1 3 (Fin 200); mkCampStat "D" 2 1 (Fin (-50))]
      ltac:(discriminate)
      ltac:(intros x Hx; simpl in Hx;
            repeat (destruct Hx as [<-|Hx]; [eexists; reflexivity|]);
            destruct Hx))
    as [[t [_ [_ [_ [Ht _]]]]] [b [_ [_ [_ [Hb _]]]]]].
  exists t, b. split; [exact Ht|]. split; [exact Hb|].
  vm_compute in Ht, Hb. injection Ht as <-. injection Hb as <-.
  split; reflexivity.
Defined.

(** ** Overall ROI between the bottom and the top campaign *)

Lemma sum_Q_pos {A} (f : A -> Q) (l : list A) :
  l <> [] -> (forall x, In x l -> 0 < f x) -> 0 < sum_Q f l.
Proof.
  induction l as [|x t IH]; intros Hne H; [congruence|].
  simpl. destruct t as [|y t'].
  - simpl. rewrite Qplus_0_r. apply H. now left.
  - apply Qlt_le_trans with (f x + 0).
    + rewrite Qplus_0_r. apply H. now left.
    + apply Qplus_le_compat; [apply Qle_refl|].
      apply Qlt_le_weak. apply IH; [discriminate|]. intros z Hz. apply H. now right.
Qed.

Lemma roi_of_pos_spend (r s : Q) :
  0 < s -> roi_of r s = Fin (((r - s) / s) * 100).
Proof.
  intros Hs. unfold roi_of, true_div.
  destruct (Qeq_bool s 0) eqn:E; [|reflexivity].
  apply Qeq_bool_iff in E. rewrite E in Hs. discriminate.
Qed.

Lemma spend_pos_opt_Q (r : camp_row) : spend_pos r = true -> 0 < opt_Q (c_spend r).
Proof.
  unfold spend_pos, opt_Q. destruct (c_spend r) as [s|]; [|discriminate].
  unfold Qlt_bool. intros H. apply Qnot_le_lt. intros Hle.
  apply Qle_bool_iff in Hle. rewrite Hle in H. discriminate.
Qed.

Lemma total_spend_pos (df : list camp_row) :
  df <> [] -> (forall r, In r df -> spend_pos r = true) -> 0 < total_spend df.
Proof.
  intros Hne H. apply sum_Q_pos; [exact Hne|]. intros r Hr. now apply spend_pos_opt_Q, H.
Qed.

Lemma campaign_stats_pos (df : list camp_row) :
  (forall r, In r df -> spend_pos r = true) ->
  forall st, In st (campaign_stats df) ->
    0 < st_spend st
    /\ st_roi st = Fin (((st_revenue st - st_spend st) / st_spend st) * 100)
    /\ In (st_campaign_id st) (map c_campaign_id df).
Proof.
  intros H st Hst. unfold campaign_stats in Hst.
  apply in_map_iff in Hst as [k [<- Hk]].
  apply in_group_keys in Hk as [r [Hr Hrk]].
  assert (Hpos : 0 < total_spend (filter (fun r => String.eqb (c_campaign_id r) k) df)).
  { apply total_spend_pos.
    - intros E. assert (Hin : In r (filter (fun r => String.eqb (c_campaign_id r) k) df))
        by (apply filter_In; split; [exact Hr|apply String.eqb_eq; exact Hrk]).
      rewrite E in Hin. destruct Hin.
    - intros r' Hr'. apply filter_In in Hr'. apply H, Hr'. }
  simpl. split; [exact Hpos|]. split; [now apply roi_of_pos_spend|].
  rewrite <- Hrk. now apply in_map.
Qed.

Lemma campaign_stats_nonempty (df : list camp_row) :
  df <> [] -> campaign_stats df <> [].
Proof.
  intros Hne. destruct df as [|r t]; [congruence|].
  assert (Hk : In (c_campaign_id r) (group_keys c_campaign_id (r :: t)))
    by (apply in_group_keys; exists r; split; [now left|reflexivity]).
  unfold campaign_stats. destruct (group_keys c_campaign_id (r :: t)); [destruct Hk|].
  discriminate.
Qed.

Lemma roi_lower_bound (q r s : Q) :
  0 < s -> q <= ((r - s) / s) * 100 -> q * s <= (r - s) * 100.
Proof.
  intros Hs H.
  setoid_replace ((r - s) * 100) with ((((r - s) / s) * 100) * s)
    by (field; intros E; rewrite E in Hs; discriminate).
  apply Qmult_le_compat_r; [exact H|now apply Qlt_le_weak].
Qed.

Lemma roi_upper_bound (q r s : Q) :
  0 < s -> ((r - s) / s) * 100 <= q -> (r - s) * 100 <= q * s.
Proof.
  intros Hs H.
  setoid_replace ((r - s) * 100) with ((((r - s) / s) * 100) * s)
    by (field; intros E; rewrite E in Hs; discriminate).
  apply Qmult_le_compat_r; [exact H|now apply Qlt_le_weak].
Qed.

Lemma sum_roi_numerator (l : list camp_stat) :
  sum_Q (fun st => (st_revenue st - st_spend st) * 100) l
  == (sum_Q st_revenue l - sum_Q st_spend l) * 100.
Proof.
  induction l as [|x t IH]; simpl; [reflexivity|]. rewrite IH. ring.
Qed.

(** On a cleaned table with at least one row, [calculate_metrics] returns
    and writes its metrics, the top, overall and bottom ROI are all finite,
    and the overall ROI lies between the bottom campaign's ROI and the top
    campaign's ROI; both named campaigns are Campaign IDs of the table. *)
Theorem campaign_roi_within_extremes (raw : list camp_row) (fs : files)
    (Hne : load_and_clean_campaigns raw <> []) :
  exists m qt qr qb,
    run_campaign_pipeline raw fs = (inr m, mkFiles (Some m) (customer_metrics_json fs))
    /\ m_top_campaign_roi m = Fin qt /\ m_roi m = Fin qr
    /\ m_bottom_campaign_roi m = Fin qb
    /\ qb <= qr /\ qr <= qt
    /\ In (m_top_campaign m) (map c_campaign_id (load_and_clean_campaigns raw))
    /\ In (m_bottom_campaign m) (map c_campaign_id (load_and_clean_campaigns raw)).
Proof.
  set (df := load_and_clean_campaigns raw) in *.
  assert (Hsp : forall r, In r df -> spend_pos r = true).
  { intros r Hr. unfold df in Hr. rewrite clean_campaigns_spec in Hr.
    apply filter_In in Hr. apply Hr. }
  pose proof (campaign_stats_pos df Hsp) as Hst.
  pose proof (campaign_stats_nonempty df Hne) as Hsne.
  assert (Hfin : roi_finite (campaign_stats df)).
  { intros st Hin. destruct (Hst st Hin) as [_ [E _]]. eexists; exact E. }
  destruct (campaign_stats df) as [|x t] eqn:Es; [congruence|].
  destruct (Hfin x (or_introl eq_refl)) as [qx Hx].
  destruct (pick_max_from t x qx Hx (roi_finite_tail _ _ Hfin))
    as [top [qt [Hpt [Ht [Hxt [Hallt Hort]]]]]].
  destruct (pick_min_from t x qx Hx (roi_finite_tail _ _ Hfin))
    as [bot [qb [Hpb [Hb [Hxb [Hallb Horb]]]]]].
  assert (Hmax : idxmax (x :: t) = Some top)
    by (unfold idxmax; simpl; rewrite Hx; exact Hpt).
  assert (Hmin : idxmin (x :: t) = Some bot)
    by (unfold idxmin; simpl; rewrite Hx; exact Hpb).
  assert (Hintop : In top (x :: t)).
  { destruct Hort as [->|[pre [post [-> _]]]]; [now left|].
    right. apply in_or_app. right. now left. }
  assert (Hinbot : In bot (x :: t)).
  { destruct Horb as [->|[pre [post [-> _]]]]; [now left|].
    right. apply in_or_app. right. now left. }
  set (S := total_spend df). set (R := total_revenue df).
  assert (HS : 0 < S) by (apply total_spend_pos; assumption).
  destruct (campaign_stats_totals df) as [HsS HsR]. rewrite Es in HsS, HsR.
  fold S in HsS. fold R in HsR.
  exists (mkCampMetrics (ctr df) (conversion_rate df) (cpl df) (roi df)
            (cpl df) (st_campaign_id top) (st_roi top)
            (st_campaign_id bot) (st_roi bot)),
         qt, (((R - S) / S) * 100), qb.
  split.
  { unfold run_campaign_pipeline, calculate_campaign_metrics. fold df.
    rewrite Es, Hmax, Hmin. reflexivity. }
  split; [exact Ht|]. split; [apply roi_of_pos_spend; exact HS|].
  split; [exact Hb|].
  (* every campaign ROI lies in [qb, qt] *)
  assert (Hle_all : forall st q, In st (x :: t) -> st_roi st = Fin q -> qb <= q /\ q <= qt).
  { intros st q [<-|Hin] Hq.
    - rewrite Hx in Hq. injection Hq as <-. split; assumption.
    - split; [exact (Hallb st q Hin Hq)|exact (Hallt st q Hin Hq)]. }
  assert (Hper : forall st, In st (x :: t) ->
            qb * st_spend st <= (st_revenue st - st_spend st) * 100
            /\ (st_revenue st - st_spend st) * 100 <= qt * st_spend st).
  { intros st Hin.
    destruct (Hst st Hin) as [Hs [Hr _]].
    destruct (Hle_all st _ Hin Hr) as [H1 H2].
    split; [now apply roi_lower_bound|now apply roi_upper_bound]. }
  assert (Hsum : qb * S <= (R - S) * 100 /\ (R - S) * 100 <= qt * S).
  { rewrite <- HsS, <- HsR, <- sum_roi_numerator, <- !sum_Q_scale.
    split; apply sum_Q_le; intros st Hin; apply (Hper st Hin). }
  destruct Hsum as [Hlo Hhi].
  split; [|split].
  - setoid_replace (((R - S) / S) * 100) with (((R - S) * 100) / S)
      by (field; intros E; rewrite E in HS; discriminate).
    apply Qle_shift_div_l; assumption.
  - setoid_replace (((R - S) / S) * 100) with (((R - S) * 100) / S)
      by (field; intros E; rewrite E in HS; discriminate).
    apply Qle_shift_div_r; assumption.
  - simpl.
    split; [exact (proj2 (proj2 (Hst top Hintop)))|exact (proj2 (proj2 (Hst bot Hinbot)))].
Qed.

Lemma campaign_roi_within_extremes_witness :
  exists m qt qr qb,
    run_campaign_pipeline
      [mkCampRow 0 "A" 1000 (Some 50%nat) 5 (Some 100) 150;
       mkCampRow 0 "B" 1000 (Some 20%nat) 1 (Some 100) 50;
       mkCampRow 0 "C" 500 None 0 (Some 10) 0]
      (mkFiles None None)
    = (inr m, mkFiles (Some m) None)
    /\ m_top_campaign_roi m = Fin qt /\ m_roi m = Fin qr
    /\ m_bottom_campaign_roi m = Fin qb
    /\ qb <= qr /\ qr <= qt
    /\ m_top_campaign m = "A" /\ m_bottom_campaign m = "B".
Proof.
  destruct (campaign_roi_within_extremes
      [mkCampRow 0 "A" 1000 (Some 50%nat) 5 (Some 100) 150;
       mkCampRow 0 "B" 1000 (Some 20%nat) 1 (Some 100) 50;
       mkCampRow 0 "C" 500 None 0 (Some 10) 0]
      (mkFiles None None)
      ltac:(intros H; vm_compute in H; discriminate H))
    as [m [qt [qr [qb [Hrun [Ht [Hr [Hb [H1 [H2 _]]]]]]]]]].
  exists m, qt, qr, qb.
  split; [exact Hrun|]. split; [exact Ht|]. split; [exact Hr|].
  split; [exact Hb|]. split; [exact H1|]. split; [exact H2|].
  vm_compute in Hrun. injection Hrun as <- _. split; reflexivity.
Defined.

(** ** Ranges of the customer metrics *)

Lemma insert_key_length (k : string) (l : list string) :
  (length (insert_key k l) <= S (length l))%nat.
Proof.
  induction l as [|h t IH]; simpl; [lia|].
  destruct (String.eqb k h); simpl; [lia|].
  destruct (String.ltb k h); simpl; lia.
Qed.

Lemma active_customers_le_length (df : list cust_row) :
  (active_customers df <= length df)%nat.
Proof.
  unfold active_customers. induction df as [|r t IH]; simpl; [lia|].
  destruct (cu_customer_id r) as [k|]; [|lia].
  pose proof (insert_key_length k (customer_ids t)). unfold customer_ids in *. lia.
Qed.

Lemma count_le_length {A} (p : A -> bool) (l : list A) :
  (count p l <= length l)%nat.
Proof.
  unfold count. induction l as [|x t IH]; simpl; [lia|].
  destruct (p x); simpl; lia.
Qed.

Lemma amount_pos_amount (r : cust_row) : amount_pos r = true -> 0 < amount r.
Proof.
  unfold amount_pos, amount, opt_Q. destruct (cu_order_amount r) as [a|]; [|discriminate].
  unfold Qlt_bool. intros H. apply Qnot_le_lt. intros Hle.
  apply Qle_bool_iff in Hle. rewrite Hle in H. discriminate.
Qed.

Lemma ratio_percent_bounds (a b : nat) :
  (0 < b)%nat -> (a <= b)%nat ->
  0 <= (QofN a / QofN b) * 100 /\ (QofN a / QofN b) * 100 <= 100.
Proof.
  intros Hb Hab. assert (HB := QofN_pos b Hb).
  split.
  - apply Qmult_le_0_compat; [|discriminate].
    apply Qle_shift_div_l; [exact HB|]. rewrite Qmult_0_l. apply QofN_nonneg.
  - setoid_replace 100 with (1 * 100) at 2 by reflexivity.
    apply Qmult_le_compat_r; [|discriminate].
    apply Qle_shift_div_r; [exact HB|]. rewrite Qmult_1_l. now apply QofN_le.
Qed.

(** On a cleaned dataset with at least one row, [calculate_metrics] returns
    and writes its metrics; there are between 1 and [len(df)] active
    customers, the buying frequency is at least 1, the total revenue is
    positive and the retention rate lies in [0, 100]. *)
Theorem customer_metrics_ranges (raw : list cust_row) (fs : files)
    (Hne : load_and_clean_customers raw <> []) :
  exists m,
    run_customer_pipeline raw fs
      = (inr m, mkFiles (campaign_metrics_json fs) (Some m))
    /\ (1 <= cm_active_customers m <= length (load_and_clean_customers raw))%nat
    /\ 1 <= cm_buying_frequency m
    /\ 0 < cm_total_revenue m
    /\ 0 <= cm_retention_rate m /\ cm_retention_rate m <= 100.
Proof.
  set (df := load_and_clean_customers raw) in *.
  assert (Hcl : forall r, In r df -> cust_notna r = true /\ amount_pos r = true)
    by (intros r Hr; now apply (clean_customers_rows raw)).
  assert (Hact : active_customers df <> 0%nat)
    by (apply (active_customers_pos df); [intros r Hr; apply (Hcl r Hr)|exact Hne]).
  assert (Hle := active_customers_le_length df).
  assert (Hret : (retained_customers df <= active_customers df)%nat).
  { unfold retained_customers, active_customers.
    rewrite <- (length_map (fun k => length (rows_of df k)) (customer_ids df)).
    apply count_le_length. }
  unfold run_customer_pipeline, calculate_customer_metrics. fold df.
  apply Nat.eqb_neq in Hact as Hb. rewrite Hb.
  eexists. split; [reflexivity|]. simpl.
  split; [lia|].
  split.
  { apply Qle_shift_div_l; [apply QofN_pos; lia|]. rewrite Qmult_1_l. now apply QofN_le. }
  split.
  { unfold total_order_amount. apply sum_Q_pos; [exact Hne|].
    intros r Hr. apply amount_pos_amount, (Hcl r Hr). }
  apply ratio_percent_bounds; lia.
Qed.

Lemma customer_metrics_ranges_witness :
  exists m,
    run_customer_pipeline
      [mkCustRow (Some "a") 0 0 (Some 10) "x";
       mkCustRow (Some "a") 0 0 (Some 10) "x";
       mkCustRow (Some "a") 86400 0 (Some 5) "y";
       mkCustRow (Some "b") 0 0 (Some 7) "x";
       mkCustRow None 0 0 (Some 3) "x";
       mkCustRow (Some "c") 0 0 (Some 0) "x"]
      (mkFiles None None)
      = (inr m, mkFiles None (Some m))
    /\ cm_active_customers m = 2%nat
    /\ 1 <= cm_buying_frequency m
    /\ 0 < cm_total_revenue m
    /\ 0 <= cm_retention_rate m /\ cm_retention_rate m <= 100.
Proof.
  destruct (customer_metrics_ranges
      [mkCustRow (Some "a") 0 0 (Some 10) "x";
       mkCustRow (Some "a") 0 0 (Some 10) "x";
       mkCustRow (Some "a") 86400 0 (Some 5) "y";
       mkCustRow (Some "b") 0 0 (Some 7) "x";
       mkCustRow None 0 0 (Some 3) "x";
       mkCustRow (Some "c") 0 0 (Some 0) "x"]
      (mkFiles None None)
      ltac:(intros H; vm_compute in H; discriminate H))
    as [m [Hrun [_ [H1 [H2 H3]]]]].
  exists m. split; [exact Hrun|]. split.
  - vm_compute in Hrun. injection Hrun as <-. reflexivity.
  - split; [exact H1|]. split; [exact H2|exact H3].
Defined.

Lemma quantile_high_attained (l : list Q) :
  l <> [] -> exists h x, quantile (4 # 5) l = Fin h /\ In x l /\ h <= x.
Proof.
  intros Hne. unfold quantile.
  assert (Hperm := sort_Q_perm l).
  assert (Hlen := Permutation_length Hperm).
  assert (Hs := sort_Q_sorted l).
  destruct (length (sort_Q l)) as [|m] eqn:E.
  - destruct l; [congruence|discriminate].
  - set (s := sort_Q l) in *.
    assert (Hm : quantile_at s m (QofN m) = last s 0).
    { unfold quantile_at, QofN. rewrite Qfloor_Z, Nat2Z.id, Nat.leb_refl. reflexivity. }
    assert (Hq : 0 <= (4 # 5) * QofN m /\ (4 # 5) * QofN m <= QofN m).
    { assert (H0 := QofN_nonneg m). split.
      - apply Qmult_le_0_compat; [discriminate|exact H0].
      - apply (proj2 (Qle_minus_iff _ _)).
        setoid_replace (QofN m + - ((4 # 5) * QofN m)) with ((1 # 5) * QofN m) by ring.
        apply Qmult_le_0_compat; [discriminate|exact H0]. }
    exists (quantile_at s m ((4 # 5) * QofN m)), (last s 0).
    split; [reflexivity|]. split.
    + apply (Permutation_in _ Hperm). rewrite (last_nth s m E).
      apply nth_In. lia.
    + rewrite <- Hm. destruct Hq as [Hq0 Hq1].
      exact (quantile_at_mono s m _ _ Hs E Hq0 Hq1 (Qle_refl _)).
Qed.

(** On a cleaned dataset with at least one row the High Value cutoff is a
    finite number reached by some customer's revenue, so the High Value
    segment is never empty. *)
Theorem high_value_segment_nonempty (raw : list cust_row) (fs : files)
    (Hne : load_and_clean_customers raw <> []) :
  exists m h,
    run_customer_pipeline raw fs
      = (inr m, mkFiles (campaign_metrics_json fs) (Some m))
    /\ cm_high_value_cutoff m = Fin h
    /\ (1 <= cm_high_value_count m)%nat.
Proof.
  set (df := load_and_clean_customers raw) in *.
  assert (Hact : active_customers df <> 0%nat).
  { apply (active_customers_pos df); [|exact Hne].
    intros r Hr. apply (clean_customers_rows raw r Hr). }
  destruct (calculate_customer_metrics_ok df fs Hact)
    as [m [Hrun [_ [_ [_ [Hcut [Hcnt _]]]]]]].
  destruct (quantile_high_attained _ (customer_revenue_nonempty df Hact))
    as [h [x [Hh [Hx Hhx]]]].
  exists m, h. split; [exact Hrun|].
  split; [rewrite Hcut; exact Hh|].
  rewrite Hcnt. unfold high_value_count, count, high_cutoff. rewrite Hh.
  destruct (filter (is_high (Fin h)) (customer_revenue df)) eqn:Ef.
  - assert (Hin : In x (filter (is_high (Fin h)) (customer_revenue df))).
    { apply filter_In. split; [exact Hx|]. unfold is_high, num_le.
      now apply Qle_bool_iff. }
    rewrite Ef in Hin. destruct Hin.
  - simpl. lia.
Qed.

Lemma high_value_segment_nonempty_witness :
  exists m h,
    run_customer_pipeline
      [mkCustRow (Some "a") 0 0 (Some 10) "x";
       mkCustRow (Some "b") 0 0 (Some 20) "x";
       mkCustRow (Some "c") 0 0 (Some 30) "x";
       mkCustRow (Some "d") 0 0 (Some 40) "x";
       mkCustRow (Some "e") 0 0 (Some 50) "x"]
      (mkFiles None None)
      = (inr m, mkFiles None (Some m))
    /\ cm_high_value_cutoff m = Fin h
    /\ cm_high_value_count m = 1%nat.
Proof.
  destruct (high_value_segment_nonempty
      [mkCustRow (Some "a") 0 0 (Some 10) "x";
       mkCustRow (Some "b") 0 0 (Some 20) "x";
       mkCustRow (Some "c") 0 0 (Some 30) "x";
       mkCustRow (Some "d") 0 0 (Some 40) "x";
       mkCustRow (Some "e") 0 0 (Some 50) "x"]
      (mkFiles None None)
      ltac:(intros H; vm_compute in H; discriminate H))
    as [m [h [Hrun [Hh _]]]].
  exists m, h. split; [exact Hrun|]. split; [exact Hh|].
  vm_compute in Hrun. injection Hrun as <-. reflexivity.
Defined.

(** ** Campaigns without conversions *)

Lemma pick_first_some (better : num -> num -> bool) (b : camp_stat)
    (l : list camp_stat) :
  exists r, pick_first better (Some b) l = Some r.
Proof.
  revert b. induction l as [|x t IH]; intros b; simpl; [eauto|].
  destruct (st_roi x); try apply IH;
    destruct (better _ (st_roi b)); apply IH.
Qed.

Lemma calculate_campaign_metrics_ok (df : list camp_row) (fs : files) :
  df <> [] -> (forall r, In r df -> spend_pos r = true) ->
  exists m,
    calculate_campaign_metrics df fs
      = (inr m, mkFiles (Some m) (customer_metrics_json fs))
    /\ m_ctr m = ctr df /\ m_conversion_rate m = conversion_rate df
    /\ m_cpl m = cpl df /\ m_roi m = roi df /\ m_cac m = cpl df.
Proof.
  intros Hne Hsp.
  pose proof (campaign_stats_pos df Hsp) as Hst.
  pose proof (campaign_stats_nonempty df Hne) as Hsne.
  unfold calculate_campaign_metrics.
  destruct (campaign_stats df) as [|x t]; [congruence|].
  destruct (Hst x (or_introl eq_refl)) as [_ [Hx _]].
  destruct (pick_first_some (fun x b => num_lt b x) x t) as [top Htop].
  destruct (pick_first_some (fun x b => num_lt x b) x t) as [bot Hbot].
  unfold idxmax, idxmin. simpl. rewrite Hx, Htop, Hbot.
  eexists. repeat split; reflexivity.
Qed.

Lemma sum_nat_zero {A} (f : A -> nat) (l : list A) :
  (forall x, In x l -> f x = 0%nat) -> sum_nat f l = 0%nat.
Proof.
  induction l as [|x t IH]; intros H; simpl; [reflexivity|].
  rewrite (H x (or_introl eq_refl)), IH; [reflexivity|].
  intros y Hy. apply H. now right.
Qed.

(** When no cleaned row has a conversion, [calculate_metrics] still returns
    and writes its metrics: CPL and CAC are [inf] (positive spend divided by
    zero) and the conversion rate is 0, or nan when there are no clicks
    either. *)
Theorem zero_conversions_cpl_inf (raw : list camp_row) (fs : files)
    (Hne : load_and_clean_campaigns raw <> [])
    (Hconv : forall r, In r (load_and_clean_campaigns raw) -> c_conversions r = 0%nat) :
  exists m,
    run_campaign_pipeline raw fs = (inr m, mkFiles (Some m) (customer_metrics_json fs))
    /\ m_cpl m = PInf /\ m_cac m = PInf
    /\ (m_conversion_rate m = NaN
        \/ exists z, m_conversion_rate m = Fin z /\ z == 0).
Proof.
  set (df := load_and_clean_campaigns raw) in *.
  assert (Hsp : forall r, In r df -> spend_pos r = true).
  { intros r Hr. unfold df in Hr. rewrite clean_campaigns_spec in Hr.
    apply filter_In in Hr. apply Hr. }
  assert (HS : 0 < total_spend df) by (apply total_spend_pos; assumption).
  assert (HC : total_conversions df = 0).
  { unfold total_conversions. rewrite (sum_nat_zero _ _ Hconv). reflexivity. }
  destruct (calculate_campaign_metrics_ok df fs Hne Hsp)
    as [m [Hrun [_ [Hcr [Hcpl [_ Hcac]]]]]].
  assert (Hinf : cpl df = PInf).
  { unfold cpl, true_div. rewrite HC. simpl.
    destruct (Qeq_bool (total_spend df) 0) eqn:E.
    - apply Qeq_bool_iff in E. rewrite E in HS. discriminate.
    - destruct (Qlt_bool 0 (total_spend df)) eqn:L; [reflexivity|].
      unfold Qlt_bool in L. apply negb_false_iff, Qle_bool_iff in L.
      exfalso. apply (Qlt_not_le _ _ HS L). }
  exists m. split; [exact Hrun|].
  split; [now rewrite Hcpl|]. split; [now rewrite Hcac|].
  rewrite Hcr. unfold conversion_rate, true_div. rewrite HC.
  destruct (Qeq_bool (total_clicks df) 0); simpl; [now left|].
  right. eexists. split; [reflexivity|]. unfold Qeq; simpl. lia.
Qed.

Lemma zero_conversions_cpl_inf_witness :
  exists m,
    run_campaign_pipeline
      [mkCampRow 0 "A" 1000 (Some 50%nat) 0 (Some 100) 0;
       mkCampRow 0 "B" 800 (Some 0%nat) 0 (Some 20) 5;
       mkCampRow 0 "C" 500 (Some 10%nat) 3 (Some 0) 0]
      (mkFiles None None)
    = (inr m, mkFiles (Some m) None)
    /\ m_cpl m = PInf /\ m_cac m = PInf
    /\ (m_conversion_rate m = NaN
        \/ exists z, m_conversion_rate m = Fin z /\ z == 0).
Proof.
  apply (zero_conversions_cpl_inf
      [mkCampRow 0 "A" 1000 (Some 50%nat) 0 (Some 100) 0;
       mkCampRow 0 "B" 800 (Some 0%nat) 0 (Some 20) 5;
       mkCampRow 0 "C" 500 (Some 10%nat) 3 (Some 0) 0]
      (mkFiles None None)).
  - intros H; vm_compute in H; discriminate H.
  - intros r Hr. vm_compute in Hr.
    destruct Hr as [<-|[<-|[]]]; reflexivity.
Defined.

(** ** Orders by day of week *)

Lemma find_keyed {A} (g : string -> A) (K : list string) (d : string) :
  find (fun p => String.eqb (fst p) d) (map (fun k => (k, g k)) K)
  = if existsb (String.eqb d) K then Some (d, g d) else None.
Proof.
  induction K as [|k K' IH]; simpl; [reflexivity|].
  destruct (String.eqb_spec k d) as [->|Hne].
  - now rewrite String.eqb_refl.
  - rewrite IH. destruct (String.eqb_spec d k) as [->|_]; [congruence|reflexivity].
Qed.

Lemma count_ext {A} (p q : A -> bool) (l : list A) :
  (forall x, p x = q x) -> count p l = count q l.
Proof. intros H. unfold count. f_equal. now apply filter_ext. Qed.

Lemma count_zero_iff {A} (p : A -> bool) (l : list A) :
  count p l = 0%nat <-> (forall x, In x l -> p x = false).
Proof.
  unfold count. induction l as [|x t IH]; simpl; [split; [intros _ y []|reflexivity]|].
  destruct (p x) eqn:E; simpl.
  - split; [discriminate|]. intros H. rewrite (H x (or_introl eq_refl)) in E. discriminate.
  - rewrite IH. split.
    + intros H y [<-|Hy]; [exact E|exact (H y Hy)].
    + intros H y Hy. apply H. now right.
Qed.

Lemma sum_nat_plus {A} (f g : A -> nat) (l : list A) :
  sum_nat (fun x => (f x + g x)%nat) l = (sum_nat f l + sum_nat g l)%nat.
Proof. induction l as [|x t IH]; simpl; [reflexivity|]. rewrite IH. lia. Qed.

Lemma sum_nat_ext {A} (f g : A -> nat) (l : list A) :
  (forall x, In x l -> f x = g x) -> sum_nat f l = sum_nat g l.
Proof.
  induction l as [|x t IH]; intros H; simpl; [reflexivity|].
  rewrite (H x (or_introl eq_refl)), IH; [reflexivity|].
  intros y Hy. apply H. now right.
Qed.

Lemma sum_nat_indicator (K : list string) (k0 : string) :
  NoDup K -> In k0 K ->
  sum_nat (fun k => if String.eqb k0 k then 1%nat else 0%nat) K = 1%nat.
Proof.
  induction K as [|k K' IH]; intros Hnd Hin; [destruct Hin|].
  inversion Hnd as [|? ? Hk Hnd']; subst. simpl.
  destruct (String.eqb_spec k0 k) as [->|Hne].
  - rewrite (sum_nat_ext _ (fun _ => 0%nat)).
    + clear. induction K'; simpl; [reflexivity|]. exact IHK'.
    + intros y Hy. destruct (String.eqb_spec k y) as [->|_]; [contradiction|].
      reflexivity.
  - destruct Hin as [->|Hin]; [congruence|]. now rewrite IH.
Qed.

Lemma sum_nat_count_partition {A} (K : list string) (f : A -> string) (l : list A) :
  NoDup K -> (forall x, In x l -> In (f x) K) ->
  sum_nat (fun d => count (fun x => String.eqb (f x) d) l) K = length l.
Proof.
  intros Hnd. induction l as [|x t IH]; intros Hin.
  - simpl. clear Hnd Hin.
    induction K as [|k K' IHK]; simpl; [reflexivity|]. exact IHK.
  - rewrite (sum_nat_ext _ (fun d => ((if String.eqb (f x) d then 1 else 0)
                                      + count (fun x => String.eqb (f x) d) t)%nat)).
    + rewrite sum_nat_plus, sum_nat_indicator, IH; [reflexivity| |exact Hnd|].
      * intros y Hy. apply Hin. now right.
      * apply Hin. now left.
    + intros d _. unfold count. simpl. destruct (String.eqb (f x) d); reflexivity.
Qed.

Lemma day_name_in (t : Z) : In (day_name t) days_order.
Proof.
  unfold day_name. apply nth_In.
  assert (H := Z.mod_pos_bound (t / 86400 + 3) 7 ltac:(lia)).
  simpl. lia.
Qed.

Lemma days_order_nodup : NoDup days_order.
Proof.
  unfold days_order.
  repeat (constructor; [simpl; intros H; repeat (destruct H as [H|H]; [discriminate H|]); exact H|]).
  constructor.
Qed.

Lemma day_counts_entry (df : list cust_row) (d : string) :
  let n := count (fun r => String.eqb (day_name (cu_order_date r)) d) df in
  option_map snd
    (find (fun p => String.eqb (fst p) d)
       (value_counts (map (fun r => day_name (cu_order_date r)) df)))
  = if Nat.eqb n 0 then None else Some n.
Proof.
  intros n. unfold value_counts. rewrite find_keyed.
  set (names := map (fun r => day_name (cu_order_date r)) df).
  assert (Hn : count (String.eqb d) names = n).
  { unfold names, n. rewrite count_map. apply count_ext.
    intros r. apply String.eqb_sym. }
  destruct (existsb (String.eqb d) (group_keys (fun x => x) names)) eqn:E.
  - apply existsb_exists in E as [k [Hk Hdk]]. apply String.eqb_eq in Hdk. subst k.
    apply in_group_keys in Hk as [x [Hx <-]].
    simpl. rewrite Hn. destruct (Nat.eqb_spec n 0) as [Hz|_]; [|reflexivity].
    rewrite <- Hn in Hz. apply count_zero_iff with (x := x) in Hz; [|exact Hx].
    rewrite String.eqb_refl in Hz. discriminate.
  - destruct (Nat.eqb_spec n 0) as [_|Hz]; [reflexivity|].
    exfalso. apply Hz. rewrite <- Hn. apply count_zero_iff.
    intros x Hx. destruct (String.eqb_spec d x) as [<-|]; [|reflexivity].
    assert (Hin : In d (group_keys (fun x => x) names))
      by (apply in_group_keys; exists d; split; [exact Hx|reflexivity]).
    pose proof (proj1 (existsb_false_iff _ _) E d Hin) as C.
    rewrite String.eqb_refl in C. exact C.
Qed.

(** The orders-by-day table lists the seven weekdays from Monday to Sunday;
    a weekday on which no order falls gets nan instead of 0, any other gets
    its (positive) number of orders, and the numbers add up to the number of
    orders. *)
Theorem day_counts_spec (df : list cust_row) :
  map fst (day_counts df) = days_order
  /\ (forall d o, In (d, o) (day_counts df) ->
        let n := count (fun r => String.eqb (day_name (cu_order_date r)) d) df in
        (n = 0%nat /\ o = None) \/ ((1 <= n)%nat /\ o = Some n))
  /\ sum_nat (fun p => opt_nat (snd p)) (day_counts df) = length df.
Proof.
  split; [|split].
  - reflexivity.
  - intros d o Hin n. unfold day_counts, reindex in Hin.
    apply in_map_iff in Hin as [d' [Heq _]]. injection Heq as <- <-.
    rewrite day_counts_entry. fold n.
    destruct (Nat.eqb_spec n 0) as [Hz|Hz]; [now left|right; split; [lia|reflexivity]].
  - unfold day_counts, reindex. rewrite <- (sum_nat_count_partition days_order
        (fun r => day_name (cu_order_date r)) df days_order_nodup
        (fun r _ => day_name_in (cu_order_date r))).
    induction days_order as [|d K IH]; simpl; [reflexivity|].
    rewrite IH. f_equal. rewrite day_counts_entry.
    destruct (Nat.eqb_spec (count (fun r => String.eqb (day_name (cu_order_date r)) d) df) 0)
      as [Hz|_]; simpl; [now rewrite Hz|reflexivity].
Qed.

(** ** Monthly series *)

Lemma in_insert_month (k x : Z) (l : list Z) :
  In x (insert_month k l) <-> x = k \/ In x l.
Proof.
  induction l as [|h t IH]; simpl; [intuition (subst; auto)|].
  destruct (Z.eqb_spec k h) as [->|Hne]; [simpl; intuition (subst; auto)|].
  destruct (Z.ltb k h); simpl; [intuition (subst; auto)|].
  rewrite IH. intuition (subst; auto).
Qed.

Lemma insert_month_sorted (k : Z) (l : list Z) :
  StronglySorted Z.lt l -> StronglySorted Z.lt (insert_month k l).
Proof.
  induction l as [|h t IH]; intros Hs; simpl.
  - constructor; constructor.
  - inversion Hs as [|? ? Ht Hall]; subst.
    destruct (Z.eqb_spec k h) as [->|Hne]; [exact Hs|].
    destruct (Z.ltb_spec k h) as [Hlt|Hge].
    + constructor; [exact Hs|]. constructor; [exact Hlt|].
      eapply Forall_impl; [|exact Hall]. intros a Ha. lia.
    + constructor; [now apply IH|]. apply Forall_forall.
      intros x Hx. apply in_insert_month in Hx as [->|Hx]; [lia|].
      exact (proj1 (Forall_forall _ _) Hall x Hx).
Qed.

Lemma month_keys_sorted {A} (date : A -> Z) (l : list A) :
  StronglySorted Z.lt (month_keys date l).
Proof.
  induction l as [|r t IH]; simpl; [constructor|]. now apply insert_month_sorted.
Qed.

Lemma in_month_keys {A} (date : A -> Z) (l : list A) (k : Z) :
  In k (month_keys date l) <-> exists r, In r l /\ month_of (date r) = k.
Proof.
  induction l as [|r t IH]; simpl.
  - split; [intros []|intros [r [[] _]]].
  - rewrite in_insert_month, IH. split.
    + intros [->|[r' [Hr' Hk]]]; [exists r; tauto|exists r'; tauto].
    + intros [r' [[<-|Hr'] Hk]]; [left; congruence|right; exists r'; tauto].
Qed.

Lemma sorted_lt_nodup (l : list Z) : StronglySorted Z.lt l -> NoDup l.
Proof.
  induction 1 as [|a l Hs IH Hall]; constructor; [|exact IH].
  intros Hin. pose proof (proj1 (Forall_forall _ _) Hall a Hin). lia.
Qed.

Lemma sum_nat_indicator_Z (K : list Z) (k0 : Z) (c : nat) :
  NoDup K -> In k0 K ->
  sum_nat (fun k => if Z.eqb k0 k then c else 0%nat) K = c.
Proof.
  induction K as [|k K' IH]; intros Hnd Hin; [destruct Hin|].
  inversion Hnd as [|? ? Hk Hnd']; subst. simpl.
  destruct (Z.eqb_spec k0 k) as [->|Hne].
  - rewrite (sum_nat_ext _ (fun _ => 0%nat)).
    + clear. induction K' as [|? ? IH]; simpl; [lia|exact IH].
    + intros y Hy. destruct (Z.eqb_spec k y) as [->|_]; [contradiction|reflexivity].
  - destruct Hin as [->|Hin]; [congruence|]. now rewrite IH.
Qed.

Lemma sum_Q_indicator_Z (K : list Z) (k0 : Z) (c : Q) :
  NoDup K -> In k0 K ->
  sum_Q (fun k => if Z.eqb k0 k then c else 0) K == c.
Proof.
  induction K as [|k K' IH]; intros Hnd Hin; [destruct Hin|].
  inversion Hnd as [|? ? Hk Hnd']; subst. simpl.
  destruct (Z.eqb_spec k0 k) as [->|Hne].
  - rewrite (sum_Q_ext _ (fun _ => 0)).
    + rewrite sum_Q_zeros. ring.
    + intros y Hy. destruct (Z.eqb_spec k y) as [->|_]; [contradiction|reflexivity].
  - destruct Hin as [->|Hin]; [congruence|]. rewrite IH; [ring|exact Hnd'|exact Hin].
Qed.

Lemma sum_nat_partition_Z {A} (K : list Z) (key : A -> Z) (f : A -> nat)
    (l : list A) :
  NoDup K -> (forall x, In x l -> In (key x) K) ->
  sum_nat (fun k => sum_nat f (filter (fun r => Z.eqb (key r) k) l)) K
  = sum_nat f l.
Proof.
  intros Hnd. induction l as [|x t IH]; intros Hin.
  - simpl. clear Hnd Hin. induction K as [|k K' IHK]; simpl; [reflexivity|].
    exact IHK.
  - rewrite (sum_nat_ext _ (fun k => ((if Z.eqb (key x) k then f x else 0)
        + sum_nat f (filter (fun r => Z.eqb (key r) k) t))%nat)).
    + rewrite sum_nat_plus, sum_nat_indicator_Z, IH; [reflexivity| |exact Hnd|].
      * intros y Hy. apply Hin. now right.
      * apply Hin. now left.
    + intros k _. simpl. destruct (Z.eqb (key x) k); reflexivity.
Qed.

Lemma sum_Q_partition_Z {A} (K : list Z) (key : A -> Z) (f : A -> Q)
    (l : list A) :
  NoDup K -> (forall x, In x l -> In (key x) K) ->
  sum_Q (fun k => sum_Q f (filter (fun r => Z.eqb (key r) k) l)) K
  == sum_Q f l.
Proof.
  intros Hnd. induction l as [|x t IH]; intros Hin.
  - simpl. apply sum_Q_zeros.
  - rewrite (sum_Q_ext _ (fun k => (if Z.eqb (key x) k then f x else 0)
        + sum_Q f (filter (fun r => Z.eqb (key r) k) t))).
    + rewrite sum_Q_plus, sum_Q_indicator_Z, IH; [reflexivity| |exact Hnd|].
      * intros y Hy. apply Hin. now right.
      * apply Hin. now left.
    + intros k _. simpl. destruct (Z.eqb (key x) k); simpl; [reflexivity|ring].
Qed.

Lemma sum_nat_map {A B} (f : B -> nat) (g : A -> B) (l : list A) :
  sum_nat f (map g l) = sum_nat (fun x => f (g x)) l.
Proof. induction l as [|x t IH]; simpl; [reflexivity|]. now rewrite IH. Qed.

(** The monthly impressions series of the campaign charts lists exactly the
    months that contain at least one row, in ascending order and each once;
    months without data are skipped, not filled with 0.  The monthly sums
    add up to the total number of impressions. *)
Theorem monthly_impressions_partition (df : list camp_row) :
  StronglySorted Z.lt (map fst (monthly_impressions df))
  /\ (forall k, In k (map fst (monthly_impressions df))
                <-> exists r, In r df /\ month_of (c_date r) = k)
  /\ sum_nat snd (monthly_impressions df) = sum_nat c_impressions df.
Proof.
  unfold monthly_impressions. rewrite map_map. simpl. rewrite map_id.
  split; [apply month_keys_sorted|]. split; [apply in_month_keys|].
  rewrite sum_nat_map. simpl.
  apply (sum_nat_partition_Z _ (fun r => month_of (c_date r))).
  - apply sorted_lt_nodup, month_keys_sorted.
  - intros r Hr. apply in_month_keys. eauto.
Qed.

(** The monthly revenue series of the customer charts lists exactly the
    months that contain at least one order, ascending and each once, and
    the monthly revenues add up to the total order amount. *)
Theorem monthly_revenue_partition (df : list cust_row) :
  StronglySorted Z.lt (map fst (monthly_revenue df))
  /\ (forall k, In k (map fst (monthly_revenue df))
                <-> exists r, In r df /\ month_of (cu_order_date r) = k)
  /\ sum_Q snd (monthly_revenue df) == total_order_amount df.
Proof.
  unfold monthly_revenue. rewrite map_map. simpl. rewrite map_id.
  split; [apply month_keys_sorted|]. split; [apply in_month_keys|].
  rewrite sum_Q_map. simpl. unfold total_order_amount.
  apply (sum_Q_partition_Z _ (fun r => month_of (cu_order_date r))).
  - apply sorted_lt_nodup, month_keys_sorted.
  - intros r Hr. apply in_month_keys. eauto.
Qed.
